(** * preview.mjs: slide capture and contact-sheet composition

    A shallow embedding of [src/pptx_build/preview.mjs].  The script
    screenshots an ordered list of HTML slides with a headless browser
    ([screenshotSlides]), tiles the captures on a fixed four-column grid
    ([makeGrid]) and reports failures through the process exit code
    ([main] and its [catch] handler).

    Calls into Node, Playwright and sharp are recorded in a trace of
    events; whether such a call rejects is decided by an environment that
    sees the whole history, so every theorem quantifies over all possible
    behaviours of the outside world. *)

From Stdlib Require Import ZArith QArith Qround List String Ascii Bool Lia.
From Stdlib.Strings Require Import Byte.
Import ListNotations.

Local Open Scope string_scope.
Local Open Scope Z_scope.

(** ** JavaScript primitives used by the script *)

Module Js.

(** The character for a decimal digit [d < 10]. *)
Definition digit (d : nat) : ascii := ascii_of_nat (48 + d).

(** Decimal digits of [n], least significant digit produced first and
    pushed in front of [acc]. *)
Fixpoint to_decimal (fuel n : nat) (acc : string) : string :=
  match fuel with
  | O => acc
  | S fuel' =>
      let acc' := String (digit (n mod 10)) acc in
      if (n / 10 =? 0)%nat then acc' else to_decimal fuel' (n / 10) acc'
  end.

(** [String(n)] for a non-negative integer [n]. *)
Definition Number_toString (n : nat) : string := to_decimal (S n) n "".

(** The first [n] characters of [pad] repeated for ever; [cur] is what
    is left of the copy being consumed. *)
Fixpoint filler (n : nat) (pad cur : string) : string :=
  match n with
  | O => ""
  | S n' =>
      match cur with
      | String c rest => String c (filler n' pad rest)
      | EmptyString =>
          match pad with
          | String c rest => String c (filler n' pad rest)
          | EmptyString => ""
          end
      end
  end.

(** [s.padStart(targetLength, padString)]. *)
Definition padStart (s : string) (targetLength : nat) (padString : string) : string :=
  if (targetLength <=? String.length s)%nat then s
  else filler (targetLength - String.length s) padString padString ++ s.

(** [a / b] on numbers: the exact quotient.  The script only divides
    an array index or length by [COLS = 4], a power of two, so the
    double-precision quotient is the exact rational one. *)
Definition div (a b : Z) : Q := inject_Z a / inject_Z b.

Definition Math_ceil (q : Q) : Z := Qceiling q.
Definition Math_floor (q : Q) : Z := Qfloor q.

(** [a % b]: the remainder takes the sign of the dividend. *)
Definition rem (a b : Z) : Z := Z.rem a b.

(** [String(z)] for an integer-valued number. *)
Definition Z_toString (z : Z) : string :=
  if z <? 0 then "-" ++ Number_toString (Z.to_nat (- z))
  else Number_toString (Z.to_nat z).

(** [Buffer.from(s)] for a string of ASCII characters. *)
Definition Buffer_from (s : string) : list byte := list_byte_of_string s.

Fixpoint ends_with_sep (p : string) : bool :=
  match p with
  | EmptyString => false
  | String c rest =>
      match rest with
      | EmptyString => Ascii.eqb c "/"
      | String _ _ => ends_with_sep rest
      end
  end.

(** [path.join(dir, name)] on POSIX, restricted to the way the script
    calls it: [dir] is an already normalised directory and [name] one
    plain segment, so joining only has to avoid doubling a separator
    that ends [dir] and to drop an empty [dir]. *)
Definition path_join (dir name : string) : string :=
  match dir with
  | EmptyString => name
  | String _ _ => if ends_with_sep dir then dir ++ name else dir ++ "/" ++ name
  end.

End Js.

Local Open Scope list_scope.

(** ** Constants of the script *)

Definition WIDTH : Z := 960.
Definition HEIGHT : Z := 540.
Definition COLS : Z := 4.
Definition GAP : Z := 18.
Definition LABEL_H : Z := 30.

(** ** The outside world *)

(** A rejected promise carries an error value. *)
Definition error : Type := string.

(** The blank canvas handed to [sharp({ create: ... })]. *)
Record create : Type := mkCreate
  { width : Z; height : Z; channels : Z; background : Z * Z * Z * Z }.

(** One entry of the array given to [composite]. *)
Record overlay : Type := mkOverlay
  { input : list byte; left : Z; top : Z }.

(** Calls that leave the script, in the order they are made. *)
Inductive event : Type :=
| FsMkdir (dir : string) (recursive : bool)
| ChromiumLaunch
| BrowserNewPage (viewportWidth viewportHeight : Z)
| PageGoto (url : string)
| PageWaitForTimeout (ms : Z)
| PageScreenshot (path : string)
| BrowserClose
| SharpToBuffer (file : string)
| SharpToFile (canvas : create) (composites : list overlay) (path : string)
| ConsoleLog (line : string)
| ConsoleError (err : error).

Definition trace : Type := list event.

(** The environment decides, from the history so far, whether a call
    rejects, and what decoding an image file yields. *)
Record env : Type := mkEnv
  { fails : trace -> event -> option error;
    pixels : trace -> string -> list byte }.

(** ** Asynchronous computations

    Every [await] in the script is sequential, so an [async] function is
    a function from the environment and the history to a completion and
    the extended history. *)

Inductive result (A : Type) : Type :=
| Ok (a : A)
| Err (e : error).
Arguments Ok {A} a.
Arguments Err {A} e.

Definition M (A : Type) : Type := env -> trace -> result A * trace.

Definition ret {A} (a : A) : M A := fun _ t => (Ok a, t).

Definition bind {A B} (m : M A) (k : A -> M B) : M B :=
  fun w t =>
    match m w t with
    | (Ok a, t1) => k a w t1
    | (Err e, t1) => (Err e, t1)
    end.

Notation "x <- m ;; k" := (bind m (fun x => k))
  (at level 61, m at next level, right associativity).
Notation "m ;; k" := (bind m (fun _ => k))
  (at level 61, right associativity).

(** Awaiting an external call: it is recorded, then resolves or rejects. *)
Definition perform (c : event) : M unit :=
  fun w t =>
    match fails w t c with
    | None => (Ok tt, t ++ [c])
    | Some e => (Err e, t ++ [c])
    end.

(** [await sharp(file).png().toBuffer()]. *)
Definition sharp_toBuffer (file : string) : M (list byte) :=
  fun w t =>
    match fails w t (SharpToBuffer file) with
    | None => (Ok (pixels w t file), t ++ [SharpToBuffer file])
    | Some e => (Err e, t ++ [SharpToBuffer file])
    end.

(** [console.log] does not reject. *)
Definition console_log (line : string) : M unit :=
  fun _ t => (Ok tt, t ++ [ConsoleLog line]).

(** [try { body } finally { fin }]: the finaliser always runs; when it
    rejects, its error replaces the completion of the body. *)
Definition try_finally {A} (body : M A) (fin : M unit) : M A :=
  fun w t =>
    match body w t with
    | (r, t1) =>
        match fin w t1 with
        | (Ok _, t2) => (r, t2)
        | (Err e, t2) => (Err e, t2)
        end
    end.

(** ** The script *)

Section Preview.

(** The directory of the script, and the slide list, which the script
    fixes as a literal (see [deckSlides] below). *)
Variable dirname : string.
Variable slideFiles : list string.

Definition slidesDir : string := Js.path_join dirname "slides".
Definition outDir : string := Js.path_join dirname "preview".
Definition outGrid : string := Js.path_join dirname "preview-grid.png".

Definition ensureDir (dir : string) : M unit :=
  perform (FsMkdir dir true).

(** The capture file of the slide at 0-based index [i]. *)
Definition outFile (i : nat) : string :=
  Js.path_join outDir
    ("slide-" ++ Js.padStart (Js.Number_toString (i + 1)) 2 "0" ++ ".png")%string.

(** The [for] loop of [screenshotSlides] from index [i] on: [rest] is
    [slideFiles] from position [i], [outputs] the array built so far. *)
Fixpoint capture_loop (i : nat) (rest : list string) (outputs : list string)
  : M (list string) :=
  match rest with
  | [] => ret outputs
  | htmlFile :: rest' =>
      let url := ("file://" ++ htmlFile)%string in
      perform (PageGoto url) ;;
      perform (PageWaitForTimeout 50) ;;
      perform (PageScreenshot (outFile i)) ;;
      capture_loop (S i) rest' (outputs ++ [outFile i])
  end.

(** The body of the [try] block of [screenshotSlides]. *)
Definition capture_body : M (list string) :=
  perform (BrowserNewPage WIDTH HEIGHT) ;;
  capture_loop 0 slideFiles [].

Definition screenshotSlides : M (list string) :=
  ensureDir outDir ;;
  perform ChromiumLaunch ;;
  try_finally capture_body (perform BrowserClose).

(** Layout of the cell at index [idx]. *)
Definition cell_row (idx : nat) : Z := Js.Math_floor (Js.div (Z.of_nat idx) COLS).
Definition cell_col (idx : nat) : Z := Js.rem (Z.of_nat idx) COLS.
Definition cell_x (idx : nat) : Z := GAP + cell_col idx * (WIDTH + GAP).
Definition cell_y (idx : nat) : Z := GAP + cell_row idx * (HEIGHT + LABEL_H + GAP).

Definition grid_rows (n : nat) : Z := Js.Math_ceil (Js.div (Z.of_nat n) COLS).
Definition gridW : Z := COLS * WIDTH + (COLS + 1) * GAP.
Definition gridH (n : nat) : Z :=
  grid_rows n * (HEIGHT + LABEL_H) + (grid_rows n + 1) * GAP.

Definition base (n : nat) : create :=
  {| width := gridW; height := gridH n; channels := 4;
     background := (20, 23, 32, 1) |}.

Definition dq : string := String "034"%char EmptyString.
Definition nl : string := String "010"%char EmptyString.

(** The template literal of the label band. *)
Definition labelSvgText (idx : nat) : string :=
  ("<svg width=" ++ dq ++ Js.Z_toString WIDTH ++ dq
    ++ " height=" ++ dq ++ Js.Z_toString LABEL_H ++ dq
    ++ " xmlns=" ++ dq ++ "http://www.w3.org/2000/svg" ++ dq ++ ">" ++ nl
    ++ "        <rect x=" ++ dq ++ "0" ++ dq ++ " y=" ++ dq ++ "0" ++ dq
    ++ " width=" ++ dq ++ Js.Z_toString WIDTH ++ dq
    ++ " height=" ++ dq ++ Js.Z_toString LABEL_H ++ dq
    ++ " fill=" ++ dq ++ "#23283A" ++ dq ++ "/>" ++ nl
    ++ "        <text x=" ++ dq ++ "12" ++ dq ++ " y=" ++ dq ++ "20" ++ dq
    ++ " font-family=" ++ dq ++ "Arial, Helvetica, sans-serif" ++ dq
    ++ " font-size=" ++ dq ++ "16" ++ dq
    ++ " fill=" ++ dq ++ "#E7ECFF" ++ dq ++ ">Slide "
    ++ Js.Number_toString (idx + 1) ++ "</text>" ++ nl
    ++ "      </svg>")%string.

(** The [for] loop of [makeGrid] from index [idx] on. *)
Fixpoint grid_loop (idx : nat) (rest : list string) (composites : list overlay)
  : M (list overlay) :=
  match rest with
  | [] => ret composites
  | image :: rest' =>
      let x := cell_x idx in
      let y := cell_y idx in
      buf <- sharp_toBuffer image ;;
      let composites1 := composites ++ [{| input := buf; left := x; top := y |}] in
      let labelSvg := Js.Buffer_from (labelSvgText idx) in
      grid_loop (S idx) rest'
        (composites1 ++ [{| input := labelSvg; left := x; top := y + HEIGHT |}])
  end.

Definition makeGrid (images : list string) : M unit :=
  let n := List.length images in
  composites <- grid_loop 0 images [] ;;
  perform (SharpToFile (base n) composites outGrid) ;;
  console_log outGrid.

Definition main : M unit :=
  images <- screenshotSlides ;;
  makeGrid images.

(** What is left when the process ends. *)
Record process : Type := mkProcess
  { events : trace; exitCode : option Z }.

(** [main().catch(err => { console.error(err); process.exitCode = 1 })]. *)
Definition run (w : env) : process :=
  match main w [] with
  | (Ok _, t) => {| events := t; exitCode := None |}
  | (Err err, t) => {| events := t ++ [ConsoleError err]; exitCode := Some 1 |}
  end.

End Preview.

(** Node exits with [process.exitCode] when it was set, and with 0
    otherwise. *)
Definition exit_status (p : process) : Z :=
  match exitCode p with
  | Some c => c
  | None => 0
  end.

(** The slide list the script ships with. *)
Definition deckSlides (dirname : string) : list string :=
  map (fun f => Js.path_join (slidesDir dirname) f)
    [ "slide-01-title.html";
      "slide-02-one-liner.html";
      "slide-03-what-can-do.html";
      "slide-04-constraints.html";
      "slide-05-specialize-compose.html";
      "slide-06-prompt-vs-skill.html";
      "slide-07-use-cases.html" ].

(** ** Vocabulary of the statements *)

(** What the run printed on the standard output and error streams. *)
Definition stdout (t : trace) : list string :=
  flat_map (fun ev => match ev with ConsoleLog l => [l] | _ => [] end) t.

Definition stderr (t : trace) : list error :=
  flat_map (fun ev => match ev with ConsoleError e => [e] | _ => [] end) t.

Definition is_close (ev : event) : bool :=
  match ev with BrowserClose => true | _ => false end.

Definition is_launch (ev : event) : bool :=
  match ev with ChromiumLaunch => true | _ => false end.

Definition is_page (ev : event) : bool :=
  match ev with
  | BrowserNewPage _ _ | PageGoto _ | PageWaitForTimeout _ | PageScreenshot _ => true
  | _ => false
  end.

(** The calls of the capturer. *)
Definition is_capture (ev : event) : bool :=
  match ev with
  | FsMkdir _ _ | ChromiumLaunch | BrowserClose => true
  | _ => is_page ev
  end.

Definition is_decode (ev : event) : bool :=
  match ev with SharpToBuffer _ => true | _ => false end.

Definition is_write (ev : event) : bool :=
  match ev with SharpToFile _ _ _ => true | _ => false end.

Definition is_console (ev : event) : bool :=
  match ev with ConsoleLog _ | ConsoleError _ => true | _ => false end.

(** How often the browser was closed. *)
Definition closes (t : trace) : nat := List.length (filter is_close t).

(** The calls of the capture loop when nothing rejects. *)
Fixpoint capture_events (dirname : string) (i : nat) (rest : list string) : trace :=
  match rest with
  | [] => []
  | f :: rest' =>
      [PageGoto ("file://" ++ f)%string; PageWaitForTimeout 50;
       PageScreenshot (outFile dirname i)]
        ++ capture_events dirname (S i) rest'
  end.

(** The overlays of the cells [idx, idx + length bufs), given the decoded
    captures. *)
Fixpoint cell_overlays (idx : nat) (bufs : list (list byte)) : list overlay :=
  match bufs with
  | [] => []
  | buf :: bufs' =>
      [ {| input := buf; left := cell_x idx; top := cell_y idx |};
        {| input := Js.Buffer_from (labelSvgText idx);
           left := cell_x idx; top := cell_y idx + HEIGHT |} ]
        ++ cell_overlays (S idx) bufs'
  end.

(** A computation that only appends events satisfying [P]. *)
Definition emits {A} (P : event -> bool) (m : M A) : Prop :=
  forall w t, exists new, snd (m w t) = t ++ new /\ forallb P new = true.

(** The buffers obtained by decoding [rest] in order from history [t]. *)
Fixpoint decoded (w : env) (t : trace) (rest : list string) : list (list byte) :=
  match rest with
  | [] => []
  | image :: rest' =>
      pixels w t image :: decoded w (t ++ [SharpToBuffer image]) rest'
  end.

(** Where an overlay is drawn. *)
Definition position (o : overlay) : Z * Z := (left o, top o).

(** An environment in which nothing ever rejects. *)
Definition never_fails (w : env) : Prop := forall t c, fails w t c = None.

Definition calm : env := {| fails := fun _ _ => None; pixels := fun _ _ => [] |}.

(** An environment in which exactly the calls selected by [bad] reject. *)
Definition failing (bad : event -> bool) (e : error) : env :=
  {| fails := fun _ c => if bad c then Some e else None;
     pixels := fun _ _ => [] |}.

(** The part of a capture path after the output directory. *)
Definition capture_name (i : nat) : string :=
  ("/slide-" ++ Js.padStart (Js.Number_toString (i + 1)) 2 "0" ++ ".png")%string.

(** Sample inputs: a deck whose slides are not in alphabetical order,
    five captures, and environments in which one kind of call rejects. *)
Definition sample_slides : list string :=
  ["/deck/slides/b.html"; "/deck/slides/a.html"].

Definition sample_images : list string :=
  map (outFile "/deck") (seq 0 5).

Definition capture_rejects : env :=
  failing (fun c => match c with PageScreenshot _ => true | _ => false end)
    "screenshot failed".

Definition mkdir_rejects : env :=
  failing (fun c => match c with FsMkdir _ _ => true | _ => false end)
    "EACCES".

Definition decode_rejects : env :=
  failing
    (fun c => match c with
              | SharpToBuffer f => String.eqb f (outFile "/deck" 2)
              | _ => false
              end)
    "unsupported image format".

(** Half-open pixel rectangles. *)
Record rect : Type := mkRect { rx : Z; ry : Z; rw : Z; rh : Z }.

Definition inside (px py : Z) (r : rect) : Prop :=
  rx r <= px < rx r + rw r /\ ry r <= py < ry r + rh r.

(** The cell of the capture at [idx]: the image with its label band. *)
Definition cell (idx : nat) : rect :=
  {| rx := cell_x idx; ry := cell_y idx; rw := WIDTH; rh := HEIGHT + LABEL_H |}.

(** The number that a string of decimal digits denotes, continuing from
    the value [acc] of the digits already read. *)
Fixpoint decimal_value (acc : nat) (s : string) : nat :=
  match s with
  | EmptyString => acc
  | String c rest => decimal_value (10 * acc + (nat_of_ascii c - 48)) rest
  end.

(** The files written by screenshots and the files read by decodings,
    in the order of the calls. *)
Definition screenshots (t : trace) : list string :=
  flat_map (fun ev => match ev with PageScreenshot f => [f] | _ => [] end) t.

Definition decodings (t : trace) : list string :=
  flat_map (fun ev => match ev with SharpToBuffer f => [f] | _ => [] end) t.

(** The calls of the [try] block of [screenshotSlides] when nothing
    rejects. *)
Definition page_calls (dirname : string) (slideFiles : list string) : trace :=
  BrowserNewPage WIDTH HEIGHT :: capture_events dirname 0 slideFiles.

(** Every call of [calls] resolves when made in order from history [t]. *)
Definition all_resolve (w : env) (t : trace) (calls : trace) : Prop :=
  forall before c after,
    calls = before ++ c :: after -> fails w (t ++ before) c = None.

(** An environment in which [browser.close()] alone rejects. *)
Definition close_rejects : env :=
  failing is_close "browser has been closed".

(** ** build.mjs: the deck builder

    [src/pptx_build/build.mjs] converts the same kind of slide list into
    one presentation: every slide is handed to [html2pptx] together with
    the presentation object, then the presentation is written. *)

Module Build.

(** The presentation object, as far as the script touches it. *)
Record pptxgen : Type := mkPptx { layout : string }.

(** Calls that leave the script. *)
Inductive call : Type :=
| Html2pptx (htmlFile : string) (pptx : pptxgen)
| PptxWriteFile (fileName : string)
| ConsoleLog (line : string)
| ConsoleError (err : error).

(** Whether a call rejects, given the calls made so far. *)
Definition world : Type := list call -> call -> option error.

Section Script.

(** [path.dirname(__dirname)] and the slide list. *)
Variable parentDir : string.
Variable slideFiles : list string.

Definition outFile : string := Js.path_join parentDir "2.pptx".

(** The [for ... of] loop of [main] over the slides still to convert. *)
Fixpoint convert (w : world) (t : list call) (pptx : pptxgen) (rest : list string)
  : result unit * list call :=
  match rest with
  | [] => (Ok tt, t)
  | htmlFile :: rest' =>
      match w t (Html2pptx htmlFile pptx) with
      | Some e => (Err e, t ++ [Html2pptx htmlFile pptx])
      | None => convert w (t ++ [Html2pptx htmlFile pptx]) pptx rest'
      end
  end.

(** [new pptxgen()] followed by [pptx.layout = "LAYOUT_16x9"], the
    conversions, then [writeFile] and [console.log]. *)
Definition main (w : world) (t : list call) : result unit * list call :=
  let pptx := {| layout := "LAYOUT_16x9" |} in
  match convert w t pptx slideFiles with
  | (Err e, t1) => (Err e, t1)
  | (Ok _, t1) =>
      match w t1 (PptxWriteFile outFile) with
      | Some e => (Err e, t1 ++ [PptxWriteFile outFile])
      | None => (Ok tt, t1 ++ [PptxWriteFile outFile; ConsoleLog outFile])
      end
  end.

(** What is left when the process ends. *)
Record process : Type := mkProcess
  { events : list call; exitCode : option Z }.

(** [main().catch(err => { console.error(err); process.exitCode = 1 })]. *)
Definition run (w : world) : process :=
  match main w [] with
  | (Ok _, t) => {| events := t; exitCode := None |}
  | (Err err, t) => {| events := t ++ [ConsoleError err]; exitCode := Some 1 |}
  end.

End Script.

Definition exit_status (p : process) : Z :=
  match exitCode p with
  | Some c => c
  | None => 0
  end.

Definition is_write (c : call) : bool :=
  match c with PptxWriteFile _ => true | _ => false end.

(** The conversion calls for a list of slides. *)
Definition conversions (slides : list string) : list call :=
  map (fun f => Html2pptx f {| layout := "LAYOUT_16x9" |}) slides.

(** A world in which converting the slide [bad] rejects. *)
Definition slide_rejects (bad : string) : world :=
  fun _ c =>
    match c with
    | Html2pptx f _ => if String.eqb f bad then Some "cannot convert" else None
    | _ => None
    end.

End Build.

(** ** Arithmetic of the layout *)

Lemma floor_div (a b : Z) : Js.Math_floor (Js.div a b) = a / b.
Proof. unfold Js.Math_floor, Js.div. symmetry. apply Zdiv_Qdiv. Qed.

Lemma ceil_div (a b : Z) : Js.Math_ceil (Js.div a b) = - ((- a) / b).
Proof.
  unfold Js.Math_ceil, Js.div, Qceiling. f_equal.
  rewrite (Zdiv_Qdiv (- a) b).
  apply Qfloor_comp.
  rewrite inject_Z_opp. unfold Qdiv. ring.
Qed.

Lemma cell_row_eq (idx : nat) : cell_row idx = Z.of_nat idx / COLS.
Proof. apply floor_div. Qed.

Lemma cell_col_eq (idx : nat) : cell_col idx = Z.of_nat idx mod COLS.
Proof.
  unfold cell_col, Js.rem, COLS. apply Z.rem_mod_nonneg; lia.
Qed.

(** [grid_rows n] is the least number of rows of [COLS] cells holding
    [n] cells. *)
Lemma grid_rows_ceil (n : nat) :
  COLS * (grid_rows n - 1) < Z.of_nat n <= COLS * grid_rows n.
Proof.
  unfold grid_rows. rewrite ceil_div. unfold COLS.
  pose proof (Z.div_mod (- Z.of_nat n) 4 ltac:(lia)) as Hdm.
  pose proof (Z.mod_pos_bound (- Z.of_nat n) 4 ltac:(lia)) as Hb.
  lia.
Qed.

Lemma grid_rows_nonneg (n : nat) : 0 <= grid_rows n.
Proof. pose proof (grid_rows_ceil n) as H. unfold COLS in H. lia. Qed.

Lemma cell_col_range (idx : nat) : 0 <= cell_col idx < COLS.
Proof. rewrite cell_col_eq. apply Z.mod_pos_bound. reflexivity. Qed.

Lemma cell_row_range (n idx : nat) :
  (idx < n)%nat -> 0 <= cell_row idx < grid_rows n.
Proof.
  intros Hlt. rewrite cell_row_eq.
  pose proof (grid_rows_ceil n) as Hr. unfold COLS in *.
  pose proof (Z.div_mod (Z.of_nat idx) 4 ltac:(lia)) as Hdm.
  pose proof (Z.mod_pos_bound (Z.of_nat idx) 4 ltac:(lia)) as Hb.
  lia.
Qed.

(** Two indices with the same row and column are the same index. *)
Lemma cell_row_col_inj (i j : nat) :
  cell_row i = cell_row j -> cell_col i = cell_col j -> i = j.
Proof.
  rewrite !cell_row_eq, !cell_col_eq. unfold COLS. intros Hr Hc.
  pose proof (Z.div_mod (Z.of_nat i) 4 ltac:(lia)) as Hi.
  pose proof (Z.div_mod (Z.of_nat j) 4 ltac:(lia)) as Hj.
  lia.
Qed.

(** ** Running computations *)

Lemma perform_run (c : event) (w : env) (t : trace) :
  perform c w t =
  (match fails w t c with None => Ok tt | Some e => Err e end, t ++ [c]).
Proof. unfold perform. destruct (fails w t c); reflexivity. Qed.

Lemma perform_calm (c : event) (w : env) (t : trace) :
  never_fails w -> perform c w t = (Ok tt, t ++ [c]).
Proof. intros Hw. rewrite perform_run, Hw. reflexivity. Qed.

Lemma emits_ret {A} P (a : A) : emits P (ret a).
Proof. intros w t. exists []. rewrite app_nil_r. split; reflexivity. Qed.

Lemma emits_perform P c : P c = true -> emits P (perform c).
Proof.
  intros Hc w t. exists [c]. rewrite perform_run. cbn. rewrite Hc. auto.
Qed.

Lemma emits_bind {A B} P (m : M A) (k : A -> M B) :
  emits P m -> (forall a, emits P (k a)) -> emits P (bind m k).
Proof.
  intros Hm Hk w t. unfold bind.
  destruct (Hm w t) as (n1 & E1 & F1).
  destruct (m w t) as [[a | e] t1]; cbn in E1; subst t1.
  - destruct (Hk a w (t ++ n1)) as (n2 & E2 & F2).
    exists (n1 ++ n2). rewrite E2, app_assoc, forallb_app, F1, F2. auto.
  - exists n1. auto.
Qed.

Lemma emits_sharp_toBuffer P file :
  P (SharpToBuffer file) = true -> emits P (sharp_toBuffer file).
Proof.
  intros Hc w t. exists [SharpToBuffer file]. unfold sharp_toBuffer.
  destruct (fails w t (SharpToBuffer file)); cbn; rewrite Hc; auto.
Qed.

Lemma emits_console_log P line :
  P (ConsoleLog line) = true -> emits P (console_log line).
Proof. intros Hc w t. exists [ConsoleLog line]. cbn. rewrite Hc. auto. Qed.

Lemma emits_try_finally {A} P (body : M A) (fin : M unit) :
  emits P body -> emits P fin -> emits P (try_finally body fin).
Proof.
  intros Hb Hf w t. unfold try_finally.
  destruct (Hb w t) as (n1 & E1 & F1).
  destruct (body w t) as [r t1]; cbn in E1; subst t1.
  destruct (Hf w (t ++ n1)) as (n2 & E2 & F2).
  exists (n1 ++ n2). rewrite forallb_app, F1, F2, app_assoc.
  destruct (fin w (t ++ n1)) as [[u | e] t2]; cbn in *; subst; auto.
Qed.

Create HintDb emits.

#[local] Hint Resolve emits_ret emits_perform emits_bind emits_sharp_toBuffer
  emits_console_log emits_try_finally : emits.

Section Facts.

Variable dirname : string.

(** *** The capture loop *)

Lemma capture_loop_emits P i rest outs :
  (forall ev, is_page ev = true -> P ev = true) ->
  emits P (capture_loop dirname i rest outs).
Proof.
  intros HP. revert i outs.
  induction rest as [| f rest IH]; intros i outs; cbn [capture_loop];
    auto 10 with emits.
Qed.

Lemma capture_loop_ok rest : forall i outs w t r t',
  capture_loop dirname i rest outs w t = (Ok r, t') ->
  r = outs ++ map (outFile dirname) (seq i (List.length rest))
  /\ t' = t ++ capture_events dirname i rest.
Proof.
  induction rest as [| f rest IH]; intros i outs w t r t' Hrun;
    cbn [capture_loop] in Hrun.
  - unfold ret in Hrun. injection Hrun as <- <-.
    cbn. now rewrite !app_nil_r.
  - unfold bind in Hrun. rewrite !perform_run in Hrun.
    repeat match type of Hrun with
           | context [fails ?w ?h ?c] => destruct (fails w h c); try discriminate
           end.
    apply IH in Hrun. destruct Hrun as [-> ->].
    cbn [List.length seq map capture_events].
    rewrite <- !app_assoc. auto.
Qed.

Lemma capture_loop_calm rest : forall i outs w t,
  never_fails w ->
  capture_loop dirname i rest outs w t =
  (Ok (outs ++ map (outFile dirname) (seq i (List.length rest))),
   t ++ capture_events dirname i rest).
Proof.
  induction rest as [| f rest IH]; intros i outs w t Hw; cbn [capture_loop].
  - cbn. now rewrite !app_nil_r.
  - unfold bind. rewrite !perform_calm by assumption.
    rewrite IH by assumption.
    cbn [List.length seq map capture_events]. rewrite <- !app_assoc. auto.
Qed.

(** *** Paths *)

Lemma ends_with_sep_app (p q : string) :
  q <> EmptyString -> Js.ends_with_sep (p ++ q) = Js.ends_with_sep q.
Proof.
  intros Hq. induction p as [| c p IH]; [reflexivity |].
  cbn [String.append Js.ends_with_sep]. rewrite IH.
  destruct (p ++ q)%string eqn:E; [| reflexivity].
  destruct p; cbn in E; [contradiction | discriminate].
Qed.

Lemma outDir_no_trailing_sep :
  outDir dirname <> EmptyString /\ Js.ends_with_sep (outDir dirname) = false.
Proof.
  unfold outDir, Js.path_join.
  destruct dirname as [| c d] eqn:E; [split; [discriminate | reflexivity] |].
  rewrite <- E. destruct (Js.ends_with_sep dirname).
  - split; [subst; discriminate |].
    rewrite ends_with_sep_app by discriminate. reflexivity.
  - split; [subst; discriminate |].
    rewrite ends_with_sep_app by discriminate. reflexivity.
Qed.

(** The capture of slide [i + 1] is [<outDir>/slide-<NN>.png]. *)
Lemma outFile_path (i : nat) :
  outFile dirname i =
  (outDir dirname ++ "/slide-"
     ++ Js.padStart (Js.Number_toString (i + 1)) 2 "0" ++ ".png")%string.
Proof.
  unfold outFile. destruct outDir_no_trailing_sep as [Hne Hsep].
  unfold Js.path_join at 1. rewrite Hsep.
  destruct (outDir dirname); [contradiction | reflexivity].
Qed.

Lemma capture_events_nth rest : forall i k f,
  nth_error rest k = Some f ->
  exists pre post,
    capture_events dirname i rest =
    pre ++ [PageGoto ("file://" ++ f)%string; PageWaitForTimeout 50;
            PageScreenshot (outFile dirname (i + k))] ++ post.
Proof.
  induction rest as [| g rest IH]; intros i k f Hk.
  - destruct k; discriminate.
  - destruct k as [| k]; cbn in Hk.
    + injection Hk as ->. exists [], (capture_events dirname (S i) rest).
      rewrite Nat.add_0_r. reflexivity.
    + destruct (IH (S i) k f Hk) as (pre & post & E).
      exists ([PageGoto ("file://" ++ g)%string; PageWaitForTimeout 50;
               PageScreenshot (outFile dirname i)] ++ pre), post.
      cbn [capture_events]. rewrite E.
      replace (S i + k)%nat with (i + S k)%nat by lia.
      rewrite <- !app_assoc. reflexivity.
Qed.

(** *** [screenshotSlides] *)

Section Capture.

Variable slideFiles : list string.

Lemma screenshotSlides_run (w : env) (t : trace) :
  screenshotSlides dirname slideFiles w t =
  match fails w t (FsMkdir (outDir dirname) true) with
  | Some e => (Err e, t ++ [FsMkdir (outDir dirname) true])
  | None =>
      match fails w (t ++ [FsMkdir (outDir dirname) true]) ChromiumLaunch with
      | Some e => (Err e, t ++ [FsMkdir (outDir dirname) true; ChromiumLaunch])
      | None =>
          try_finally (capture_body dirname slideFiles) (perform BrowserClose) w
            (t ++ [FsMkdir (outDir dirname) true; ChromiumLaunch])
      end
  end.
Proof.
  unfold screenshotSlides, ensureDir, bind. rewrite !perform_run.
  destruct (fails w t _); [reflexivity |].
  rewrite <- app_assoc. cbn [app].
  destruct (fails w _ ChromiumLaunch); reflexivity.
Qed.

Lemma capture_body_emits : emits is_page (capture_body dirname slideFiles).
Proof.
  unfold capture_body. apply emits_bind; [now apply emits_perform |].
  intros _. now apply capture_loop_emits.
Qed.

Lemma page_events_no_close (body : trace) :
  forallb is_page body = true -> filter is_close body = [].
Proof.
  induction body as [| ev body IH]; [reflexivity |].
  cbn. intros H. apply andb_prop in H as [Hev Hb].
  destruct ev; try discriminate; cbn; auto.
Qed.

Lemma screenshotSlides_emits P :
  (forall ev, is_capture ev = true -> P ev = true) ->
  emits P (screenshotSlides dirname slideFiles).
Proof.
  intros HP. unfold screenshotSlides, ensureDir.
  repeat first
    [ apply emits_bind; [| intros ?]
    | apply emits_try_finally
    | apply emits_perform; apply HP; reflexivity
    | apply capture_loop_emits;
      intros ev Hev; apply HP; destruct ev; try discriminate; reflexivity ].
Qed.

Lemma screenshotSlides_ok (w : env) (t : trace) outs t' :
  screenshotSlides dirname slideFiles w t = (Ok outs, t') ->
  outs = map (outFile dirname) (seq 0 (List.length slideFiles))
  /\ t' = t ++ [FsMkdir (outDir dirname) true; ChromiumLaunch;
                BrowserNewPage WIDTH HEIGHT]
            ++ capture_events dirname 0 slideFiles ++ [BrowserClose].
Proof.
  rewrite screenshotSlides_run.
  destruct (fails w t _); [discriminate |].
  destruct (fails w _ ChromiumLaunch); [discriminate |].
  unfold try_finally, capture_body, bind. rewrite perform_run.
  destruct (fails w _ (BrowserNewPage _ _)).
  - rewrite perform_run. destruct (fails w _ BrowserClose); discriminate.
  - destruct (capture_loop _ _ _ _ _ _) as [r t1] eqn:Eloop.
    rewrite perform_run.
    destruct (fails w t1 BrowserClose); [discriminate |].
    intros H. injection H as -> <-.
    apply capture_loop_ok in Eloop as [-> ->].
    split; [reflexivity |].
    rewrite <- !app_assoc. reflexivity.
Qed.

Lemma screenshotSlides_calm (w : env) (t : trace) :
  never_fails w ->
  screenshotSlides dirname slideFiles w t =
  (Ok (map (outFile dirname) (seq 0 (List.length slideFiles))),
   t ++ [FsMkdir (outDir dirname) true; ChromiumLaunch;
         BrowserNewPage WIDTH HEIGHT]
     ++ capture_events dirname 0 slideFiles ++ [BrowserClose]).
Proof.
  intros Hw. rewrite screenshotSlides_run, !Hw.
  unfold try_finally, capture_body, bind.
  rewrite perform_calm, capture_loop_calm, perform_calm by assumption.
  rewrite <- !app_assoc. reflexivity.
Qed.

End Capture.

(** *** The compositing loop *)

Lemma grid_loop_emits P idx rest acc :
  (forall ev, is_decode ev = true -> P ev = true) ->
  emits P (grid_loop idx rest acc).
Proof.
  intros HP. revert idx acc.
  induction rest as [| image rest IH]; intros idx acc; cbn [grid_loop];
    auto 10 with emits.
Qed.

Lemma grid_loop_ok rest : forall idx acc w t comps t',
  grid_loop idx rest acc w t = (Ok comps, t') ->
  comps = acc ++ cell_overlays idx (decoded w t rest)
  /\ t' = t ++ map SharpToBuffer rest.
Proof.
  induction rest as [| image rest IH]; intros idx acc w t comps t' Hrun;
    cbn [grid_loop] in Hrun.
  - injection Hrun as <- <-. cbn. now rewrite !app_nil_r.
  - unfold bind, sharp_toBuffer in Hrun.
    destruct (fails w t (SharpToBuffer image)); [discriminate |].
    apply IH in Hrun as [-> ->].
    cbn [decoded cell_overlays map]. rewrite <- !app_assoc. auto.
Qed.

Lemma grid_loop_calm rest : forall idx acc w t,
  never_fails w ->
  grid_loop idx rest acc w t =
  (Ok (acc ++ cell_overlays idx (decoded w t rest)), t ++ map SharpToBuffer rest).
Proof.
  induction rest as [| image rest IH]; intros idx acc w t Hw; cbn [grid_loop].
  - cbn. now rewrite !app_nil_r.
  - unfold bind, sharp_toBuffer. rewrite Hw, IH by assumption.
    cbn [decoded cell_overlays map]. rewrite <- !app_assoc. auto.
Qed.

(** The loop stops at the first image whose decoding rejects. *)
Lemma grid_loop_unreadable rest : forall idx acc w t bad,
  In bad rest ->
  (forall h, fails w h (SharpToBuffer bad) <> None) ->
  exists k image e,
    nth_error rest k = Some image
    /\ fails w (t ++ map SharpToBuffer (firstn k rest)) (SharpToBuffer image) = Some e
    /\ (forall j prev, (j < k)%nat -> nth_error rest j = Some prev ->
          fails w (t ++ map SharpToBuffer (firstn j rest)) (SharpToBuffer prev) = None)
    /\ grid_loop idx rest acc w t =
       (Err e, t ++ map SharpToBuffer (firstn (S k) rest)).
Proof.
  induction rest as [| image rest IH]; intros idx acc w t bad Hin Hbad;
    [contradiction |].
  destruct (fails w t (SharpToBuffer image)) as [e |] eqn:Ehead.
  - exists 0%nat, image, e. cbn [firstn map nth_error]. rewrite app_nil_r.
    repeat split; auto; try lia.
    cbn [grid_loop]. unfold bind, sharp_toBuffer. now rewrite Ehead.
  - destruct Hin as [-> | Hin]; [now apply Hbad in Ehead |].
    destruct (IH (S idx)
                ((acc ++ [{| input := pixels w t image; left := cell_x idx;
                             top := cell_y idx |}])
                   ++ [{| input := Js.Buffer_from (labelSvgText idx);
                          left := cell_x idx; top := cell_y idx + HEIGHT |}])
                w (t ++ [SharpToBuffer image]) bad Hin Hbad)
      as (k & img & e & Hk & Hfail & Hbefore & Hrun).
    exists (S k), img, e. cbn [firstn map nth_error].
    rewrite <- app_assoc in Hfail. cbn [app] in Hfail.
    repeat split; auto.
    + intros [| j] prev Hj Hprev; cbn in Hprev |- *.
      * injection Hprev as <-. now rewrite app_nil_r.
      * specialize (Hbefore j prev ltac:(lia) Hprev).
        now rewrite <- app_assoc in Hbefore.
    + cbn [grid_loop]. unfold bind, sharp_toBuffer. rewrite Ehead, Hrun, <- app_assoc.
      reflexivity.
Qed.

Lemma decoded_length w rest : forall t,
  List.length (decoded w t rest) = List.length rest.
Proof. induction rest; intros t; cbn; auto. Qed.

Lemma decoded_nth w rest : forall t k image,
  nth_error rest k = Some image ->
  nth_error (decoded w t rest) k =
  Some (pixels w (t ++ map SharpToBuffer (firstn k rest)) image).
Proof.
  induction rest as [| im rest IH]; intros t [| k] image Hk; try discriminate;
    cbn in Hk |- *.
  - injection Hk as ->. now rewrite app_nil_r.
  - rewrite (IH _ _ _ Hk), <- app_assoc. reflexivity.
Qed.

Lemma cell_overlays_length bufs : forall idx,
  List.length (cell_overlays idx bufs) = (2 * List.length bufs)%nat.
Proof.
  induction bufs as [| b bufs IH]; intros idx; cbn [cell_overlays]; [reflexivity |].
  cbn [app List.length]. rewrite IH. lia.
Qed.

Lemma cell_overlays_nth bufs : forall idx k buf,
  nth_error bufs k = Some buf ->
  nth_error (cell_overlays idx bufs) (2 * k) =
    Some {| input := buf; left := cell_x (idx + k); top := cell_y (idx + k) |}
  /\ nth_error (cell_overlays idx bufs) (2 * k + 1) =
    Some {| input := Js.Buffer_from (labelSvgText (idx + k));
            left := cell_x (idx + k); top := cell_y (idx + k) + HEIGHT |}.
Proof.
  induction bufs as [| b bufs IH]; intros idx [| k] buf Hk; try discriminate;
    cbn in Hk.
  - injection Hk as ->. rewrite Nat.add_0_r. split; reflexivity.
  - destruct (IH (S idx) k buf Hk) as [H0 H1].
    replace (2 * S k)%nat with (S (S (2 * k))) by lia.
    replace (S (S (2 * k)) + 1)%nat with (S (S (2 * k + 1))) by lia.
    replace (idx + S k)%nat with (S idx + k)%nat by lia.
    cbn [cell_overlays app nth_error]. auto.
Qed.

(** Positions depend on the number of cells only. *)
Lemma cell_overlays_positions bufs : forall bufs' idx,
  List.length bufs = List.length bufs' ->
  map position (cell_overlays idx bufs) = map position (cell_overlays idx bufs').
Proof.
  induction bufs as [| b bufs IH]; intros [| b' bufs'] idx Hlen; try discriminate;
    [reflexivity |].
  cbn [cell_overlays app map]. f_equal. f_equal. apply IH. now injection Hlen.
Qed.

(** *** [makeGrid] *)

Lemma makeGrid_ok images w t u t' :
  makeGrid dirname images w t = (Ok u, t') ->
  t' = t ++ map SharpToBuffer images
         ++ [SharpToFile (base (List.length images))
               (cell_overlays 0 (decoded w t images)) (outGrid dirname);
             ConsoleLog (outGrid dirname)].
Proof.
  unfold makeGrid, bind.
  destruct (grid_loop _ _ _ _ _) as [[comps | e] t1] eqn:Eloop; [| discriminate].
  apply grid_loop_ok in Eloop as [-> ->]. rewrite perform_run.
  destruct (fails w _ _); [discriminate |].
  unfold console_log. intros H. injection H as _ <-.
  rewrite <- !app_assoc. reflexivity.
Qed.

Lemma makeGrid_calm images w t :
  never_fails w ->
  makeGrid dirname images w t =
  (Ok tt,
   t ++ map SharpToBuffer images
     ++ [SharpToFile (base (List.length images))
           (cell_overlays 0 (decoded w t images)) (outGrid dirname);
         ConsoleLog (outGrid dirname)]).
Proof.
  intros Hw. unfold makeGrid, bind.
  rewrite grid_loop_calm, perform_calm by assumption.
  unfold console_log. cbn [app]. rewrite <- !app_assoc. reflexivity.
Qed.

(** A rejected [makeGrid] printed nothing. *)
Lemma makeGrid_err images w t e t' :
  makeGrid dirname images w t = (Err e, t') ->
  exists new, t' = t ++ new /\ forallb (fun ev => negb (is_console ev)) new = true.
Proof.
  unfold makeGrid, bind.
  destruct (grid_loop_emits (fun ev => negb (is_console ev)) 0 images []
              ltac:(intros [] H; try discriminate; reflexivity) w t)
    as (n1 & E1 & F1).
  destruct (grid_loop _ _ _ _ _) as [[comps | e1] t1]; cbn in E1; subst t1.
  - rewrite perform_run. destruct (fails w _ _); [| discriminate].
    intros H. injection H as _ <-.
    exists (n1 ++ [SharpToFile (base (List.length images)) comps (outGrid dirname)]).
    rewrite app_assoc, forallb_app, F1. auto.
  - intros H. injection H as _ <-. eauto.
Qed.

End Facts.

(** ** Numerals and file names *)

Lemma to_decimal_step (fuel n : nat) (acc : string) :
  Js.to_decimal (S fuel) n acc =
  if (n / 10 =? 0)%nat then String (Js.digit (n mod 10)) acc
  else Js.to_decimal fuel (n / 10) (String (Js.digit (n mod 10)) acc).
Proof. reflexivity. Qed.

Lemma to_decimal_length_ge (fuel : nat) : forall n acc,
  (String.length acc <= String.length (Js.to_decimal fuel n acc))%nat.
Proof.
  induction fuel as [| fuel IH]; intros n acc; [apply Nat.le_refl |].
  rewrite to_decimal_step. destruct (n / 10 =? 0)%nat.
  - cbn [String.length]. lia.
  - etransitivity; [| apply IH]. cbn [String.length]. lia.
Qed.

(** From one hundred on, [String(n)] has three digits or more. *)
Lemma Number_toString_long (n : nat) :
  (100 <= n)%nat -> (3 <= String.length (Js.Number_toString n))%nat.
Proof.
  intros Hn. unfold Js.Number_toString.
  assert (H1 : (10 <= n / 10)%nat) by (apply Nat.div_le_lower_bound; lia).
  assert (H2 : (1 <= n / 10 / 10)%nat) by (apply Nat.div_le_lower_bound; lia).
  destruct n as [| [| fuel]]; try lia.
  remember (S (S fuel)) as m eqn:Em.
  rewrite to_decimal_step.
  destruct (Nat.eqb_spec (m / 10) 0) as [E | _]; [lia |].
  rewrite Em at 1. rewrite to_decimal_step.
  destruct (Nat.eqb_spec (m / 10 / 10) 0) as [E | _]; [lia |].
  destruct fuel as [| fuel]; [lia |].
  rewrite to_decimal_step.
  destruct (m / 10 / 10 / 10 =? 0)%nat.
  - cbn [String.length]. lia.
  - etransitivity; [| apply to_decimal_length_ge]. cbn [String.length]. lia.
Qed.

(** [padStart] leaves a string alone that is long enough. *)
Lemma padStart_long (s : string) (target : nat) (pad : string) :
  (target <= String.length s)%nat -> Js.padStart s target pad = s.
Proof.
  intros H. unfold Js.padStart.
  destruct (Nat.leb_spec target (String.length s)); [reflexivity | lia].
Qed.

Lemma forallb_below (P : nat -> bool) (k : nat) :
  forallb P (seq 0 k) = true -> forall n, (n < k)%nat -> P n = true.
Proof.
  intros H n Hn. rewrite forallb_forall in H. apply H, in_seq. lia.
Qed.

Lemma ascii_compare_refl (c : ascii) : Ascii.compare c c = Eq.
Proof. unfold Ascii.compare. apply N.compare_refl. Qed.

(** A common prefix does not change how two strings compare. *)
Lemma compare_common_prefix (p a b : string) :
  String.compare (p ++ a) (p ++ b) = String.compare a b.
Proof.
  induction p as [| c p IH]; [reflexivity |].
  cbn [String.append String.compare]. now rewrite ascii_compare_refl.
Qed.

Lemma ltb_common_prefix (p a b : string) :
  String.ltb (p ++ a) (p ++ b) = String.ltb a b.
Proof. unfold String.ltb. now rewrite compare_common_prefix. Qed.

Lemma two_digits_below_100 :
  forallb
    (fun i => (String.length (Js.padStart (Js.Number_toString (i + 1)) 2 "0") =? 2)%nat)
    (seq 0 99) = true.
Proof. vm_compute. reflexivity. Qed.

Lemma names_sorted_below_100 :
  forallb
    (fun i =>
       forallb
         (fun j => implb (i <? j)%nat (String.ltb (capture_name i) (capture_name j)))
         (seq 0 99))
    (seq 0 99) = true.
Proof. vm_compute. reflexivity. Qed.

Lemma quiet_streams (t : trace) :
  forallb (fun ev => negb (is_console ev)) t = true ->
  stdout t = [] /\ stderr t = [].
Proof.
  induction t as [| ev t IH]; [split; reflexivity |].
  cbn [forallb]. intros H. apply andb_prop in H as [Hev Ht].
  destruct (IH Ht) as [Ho He].
  destruct ev; try discriminate; cbn; auto.
Qed.

Lemma stdout_app (a b : trace) : stdout (a ++ b) = stdout a ++ stdout b.
Proof. apply flat_map_app. Qed.

Lemma stderr_app (a b : trace) : stderr (a ++ b) = stderr a ++ stderr b.
Proof. apply flat_map_app. Qed.

Lemma quiet_no_compositor (t : trace) :
  forallb (fun ev => negb (is_decode ev || is_write ev || is_console ev)) t = true ->
  filter is_decode t = [] /\ filter is_write t = []
  /\ forallb (fun ev => negb (is_console ev)) t = true.
Proof.
  induction t as [| ev t IH]; [repeat split; reflexivity |].
  cbn [forallb]. intros H. apply andb_prop in H as [Hev Ht].
  destruct (IH Ht) as (Hd & Hw & Hc).
  destruct ev; try discriminate; cbn; auto.
Qed.

Lemma decodings_write_nothing (files : list string) :
  filter is_write (map SharpToBuffer files) = []
  /\ stdout (map SharpToBuffer files) = [].
Proof. induction files as [| f files [IHw IHo]]; split; cbn; auto. Qed.

(** ** The layout of the grid *)

Section Layout.

Variable dirname : string.

(** C1.  Whenever [makeGrid] completes on [N] images, it has decoded
    them in order and written one canvas of width
    [COLS * WIDTH + (COLS + 1) * GAP] and height
    [rows * (HEIGHT + LABEL_H) + (rows + 1) * GAP], where [rows] is the
    ceiling of [N / COLS]; the overlay list has two entries per image:
    entry [2 i] is the capture at [x = GAP + (i mod COLS) * (WIDTH + GAP)],
    [y = GAP + (i / COLS) * (HEIGHT + LABEL_H + GAP)], entry [2 i + 1]
    its label band at the same [x] and at [y + HEIGHT].  This holds for
    every [N], in particular for [N >= 1]. *)
Theorem grid_layout_exact (images : list string) (w : env) (t : trace) :
  fst (makeGrid dirname images w t) = Ok tt ->
  exists rows comps,
    COLS * (rows - 1) < Z.of_nat (List.length images) <= COLS * rows
    /\ snd (makeGrid dirname images w t) =
       t ++ map SharpToBuffer images
         ++ [SharpToFile
               {| width := COLS * WIDTH + (COLS + 1) * GAP;
                  height := rows * (HEIGHT + LABEL_H) + (rows + 1) * GAP;
                  channels := 4; background := (20, 23, 32, 1) |}
               comps (outGrid dirname);
             ConsoleLog (outGrid dirname)]
    /\ List.length comps = (2 * List.length images)%nat
    /\ forall i image, nth_error images i = Some image ->
         let x := GAP + (Z.of_nat i mod COLS) * (WIDTH + GAP) in
         let y := GAP + (Z.of_nat i / COLS) * (HEIGHT + LABEL_H + GAP) in
         nth_error comps (2 * i) =
           Some {| input := pixels w (t ++ map SharpToBuffer (firstn i images)) image;
                   left := x; top := y |}
         /\ nth_error comps (2 * i + 1) =
           Some {| input := Js.Buffer_from (labelSvgText i);
                   left := x; top := y + HEIGHT |}.
Proof.
  intros Hok.
  destruct (makeGrid dirname images w t) as [r t'] eqn:Erun.
  cbn in Hok. subst r. apply makeGrid_ok in Erun. subst t'.
  exists (grid_rows (List.length images)),
    (cell_overlays 0 (decoded w t images)).
  split; [apply grid_rows_ceil |].
  split; [reflexivity |].
  split; [now rewrite cell_overlays_length, decoded_length |].
  intros i image Hi. cbn zeta.
  destruct (cell_overlays_nth (decoded w t images) 0 i _
              (decoded_nth w images t i image Hi)) as [H0 H1].
  cbn [Nat.add] in H0, H1. rewrite H0, H1.
  unfold cell_x, cell_y. rewrite cell_row_eq, cell_col_eq. auto.
Qed.

(** C2.  For every [N >= 1] and every index [i < N]: the cell of [i]
    shares no pixel with the cell of any other index below [N]; the
    cell with a gap on every side lies within the canvas of [gridW] by
    [gridH N]; and the fit is exact: the gap right of a cell in the last
    column ends at [gridW], the gap below the last cell ends at
    [gridH N].  A single slide ([N = 1]) is covered: containment and
    exact fit need no second index. *)
Theorem grid_cells_disjoint_in_canvas (n i : nat) :
  (i < n)%nat ->
  (forall j, (j < n)%nat -> i <> j ->
     forall px py, ~ (inside px py (cell i) /\ inside px py (cell j)))
  /\ (0 <= rx (cell i) - GAP /\ rx (cell i) + rw (cell i) + GAP <= gridW)
  /\ (0 <= ry (cell i) - GAP /\ ry (cell i) + rh (cell i) + GAP <= gridH n)
  /\ (cell_col i = COLS - 1 -> rx (cell i) + rw (cell i) + GAP = gridW)
  /\ ry (cell (n - 1)) + rh (cell (n - 1)) + GAP = gridH n.
Proof.
  intros Hi.
  pose proof (cell_col_range i) as Hci.
  pose proof (cell_row_range n i Hi) as Hri.
  pose proof (cell_row_range n (n - 1) ltac:(lia)) as Hlast.
  assert (Hrow : cell_row (n - 1) = grid_rows n - 1).
  { pose proof (grid_rows_ceil n) as Hr. rewrite cell_row_eq in *.
    unfold COLS in *.
    pose proof (Z.div_mod (Z.of_nat (n - 1)) 4 ltac:(lia)) as Hdm.
    pose proof (Z.mod_pos_bound (Z.of_nat (n - 1)) 4 ltac:(lia)) as Hb.
    lia. }
  split.
  - intros j Hj Hij px py.
    pose proof (cell_col_range j) as Hcj.
    pose proof (cell_row_range n j Hj) as Hrj.
    assert (Hdiff : cell_row i <> cell_row j \/ cell_col i <> cell_col j).
    { destruct (Z.eq_dec (cell_row i) (cell_row j)) as [Er | Nr]; [| now left].
      destruct (Z.eq_dec (cell_col i) (cell_col j)) as [Ec | Nc]; [| now right].
      exfalso. apply Hij. now apply cell_row_col_inj. }
    unfold inside, cell, cell_x, cell_y; cbn [rx ry rw rh].
    unfold COLS, WIDTH, HEIGHT, LABEL_H, GAP in *.
    lia.
  - unfold cell, gridW, gridH, cell_x, cell_y; cbn [rx ry rw rh].
    rewrite Hrow.
    unfold COLS, WIDTH, HEIGHT, LABEL_H, GAP in *.
    repeat split; lia.
Qed.

End Layout.

(** ** The capturer *)

Section Capturer.

Variable dirname : string.
Variable slideFiles : list string.

(** C3.  When nothing rejects, [screenshotSlides] completes; and
    whenever it completes, it returns one path per slide, the path at
    position [i] being [<outDir>/slide-<NN>.png] with [NN] the numeral
    of [i + 1] padded to two digits, and the capture written to that
    path was taken right after navigating to the slide at position [i]
    of the input list. *)
Theorem capture_outputs_follow_input (w : env) (t : trace) :
  (never_fails w ->
   exists outs, fst (screenshotSlides dirname slideFiles w t) = Ok outs)
  /\ forall outs t',
      screenshotSlides dirname slideFiles w t = (Ok outs, t') ->
      List.length outs = List.length slideFiles
      /\ t' = t ++ [FsMkdir (outDir dirname) true; ChromiumLaunch;
                    BrowserNewPage WIDTH HEIGHT]
                ++ capture_events dirname 0 slideFiles ++ [BrowserClose]
      /\ forall i slide, nth_error slideFiles i = Some slide ->
           let out :=
             (outDir dirname ++ "/slide-"
                ++ Js.padStart (Js.Number_toString (i + 1)) 2 "0" ++ ".png")%string in
           nth_error outs i = Some out
           /\ exists before after,
                t' = before
                       ++ [PageGoto ("file://" ++ slide)%string;
                           PageWaitForTimeout 50; PageScreenshot out]
                       ++ after.
Proof.
  split.
  - intros Hw. rewrite screenshotSlides_calm by assumption.
    cbn [fst]. eauto.
  - intros outs t' Hrun. apply screenshotSlides_ok in Hrun as [-> ->].
    split; [now rewrite length_map, length_seq |].
    split; [reflexivity |].
    intros i slide Hi. cbn zeta. rewrite <- outFile_path. split.
    + assert (Hlt : (i < List.length slideFiles)%nat)
        by (apply nth_error_Some; congruence).
      rewrite nth_error_map, nth_error_seq.
      destruct (Nat.ltb_spec i (List.length slideFiles)); [reflexivity | lia].
    + destruct (capture_events_nth dirname slideFiles 0 i slide Hi)
        as (pre & post & E).
      exists (t ++ [FsMkdir (outDir dirname) true; ChromiumLaunch;
                    BrowserNewPage WIDTH HEIGHT] ++ pre),
        (post ++ [BrowserClose]).
      rewrite E. cbn [Nat.add]. rewrite <- !app_assoc. reflexivity.
Qed.

(** C4.  Once the browser has been launched, every run of
    [screenshotSlides] ends with [browser.close()], called exactly
    once, after calls on the page only; the run then rejects with the
    error of [close] if that call rejects, and completes as the body of
    the [try] block did otherwise, so a failure of [newPage], [goto],
    [waitForTimeout] or [screenshot] propagates after the browser was
    closed. *)
Theorem browser_closed_exactly_once (w : env) (t : trace) :
  fails w t (FsMkdir (outDir dirname) true) = None ->
  fails w (t ++ [FsMkdir (outDir dirname) true]) ChromiumLaunch = None ->
  exists body,
    let launched := t ++ [FsMkdir (outDir dirname) true; ChromiumLaunch] in
    snd (screenshotSlides dirname slideFiles w t) = launched ++ body ++ [BrowserClose]
    /\ forallb is_page body = true
    /\ closes ([FsMkdir (outDir dirname) true; ChromiumLaunch]
                 ++ body ++ [BrowserClose]) = 1%nat
    /\ capture_body dirname slideFiles w launched
       = (fst (capture_body dirname slideFiles w launched), launched ++ body)
    /\ fst (screenshotSlides dirname slideFiles w t) =
       match fails w (launched ++ body) BrowserClose with
       | Some e => Err e
       | None => fst (capture_body dirname slideFiles w launched)
       end.
Proof.
  intros Hmk Hlaunch. rewrite screenshotSlides_run, Hmk, Hlaunch.
  set (launched := t ++ [FsMkdir (outDir dirname) true; ChromiumLaunch]).
  destruct (capture_body_emits dirname slideFiles w launched) as (body & E & F).
  exists body. cbn zeta. fold launched.
  unfold try_finally.
  destruct (capture_body dirname slideFiles w launched) as [r t1].
  cbn [snd fst] in *. subst t1. rewrite perform_run.
  assert (Hc : closes ([FsMkdir (outDir dirname) true; ChromiumLaunch]
                         ++ body ++ [BrowserClose]) = 1%nat).
  { unfold closes. cbn [app filter is_close].
    rewrite filter_app, (page_events_no_close body F). reflexivity. }
  destruct (fails w (launched ++ body) BrowserClose);
    cbn [fst snd]; rewrite <- app_assoc; repeat split; auto.
Qed.

(** C10.  [fs.mkdir(outDir, { recursive: true })] is the first call of
    every run of [screenshotSlides]; when it rejects, the run rejects
    with its error and that call is the only one made: the browser was
    never launched. *)
Theorem output_dir_before_browser (w : env) (t : trace) :
  (exists rest,
     snd (screenshotSlides dirname slideFiles w t) =
     t ++ FsMkdir (outDir dirname) true :: rest)
  /\ forall e,
      fails w t (FsMkdir (outDir dirname) true) = Some e ->
      screenshotSlides dirname slideFiles w t =
        (Err e, t ++ [FsMkdir (outDir dirname) true])
      /\ filter is_launch [FsMkdir (outDir dirname) true] = []
      /\ closes [FsMkdir (outDir dirname) true] = 0%nat.
Proof.
  split.
  - rewrite screenshotSlides_run.
    destruct (fails w t _); [now exists [] |].
    destruct (fails w _ ChromiumLaunch); [now exists [ChromiumLaunch] |].
    unfold try_finally.
    destruct (capture_body_emits dirname slideFiles w
                (t ++ [FsMkdir (outDir dirname) true; ChromiumLaunch]))
      as (body & Eb & _).
    destruct (capture_body _ _ _ _) as [r t1]. cbn in Eb. subst t1.
    rewrite perform_run.
    exists (ChromiumLaunch :: body ++ [BrowserClose]).
    destruct (fails w _ BrowserClose); cbn [snd];
      rewrite <- !app_assoc; reflexivity.
  - intros e He. rewrite screenshotSlides_run, He. auto.
Qed.

End Capturer.

(** ** The compositor *)

Section Compositor.

Variable dirname : string.

(** C5.  If decoding one of the images always rejects, [makeGrid]
    rejects with the error of the first decoding that rejected, having
    made no call but the decodings up to that one: nothing was handed
    to [toFile] and nothing was printed.  More generally, whenever the
    loop that assembles the overlays rejects, [makeGrid] rejects with
    the same error after decoding calls only. *)
Theorem decode_failure_writes_nothing (images : list string) (w : env) (t : trace) :
  (forall bad,
     In bad images ->
     (forall h, fails w h (SharpToBuffer bad) <> None) ->
     exists k image e,
       nth_error images k = Some image
       /\ fails w (t ++ map SharpToBuffer (firstn k images)) (SharpToBuffer image)
          = Some e
       /\ (forall j prev, (j < k)%nat -> nth_error images j = Some prev ->
             fails w (t ++ map SharpToBuffer (firstn j images)) (SharpToBuffer prev)
             = None)
       /\ makeGrid dirname images w t =
          (Err e, t ++ map SharpToBuffer (firstn (S k) images))
       /\ filter is_write (map SharpToBuffer (firstn (S k) images)) = []
       /\ stdout (map SharpToBuffer (firstn (S k) images)) = [])
  /\ forall e,
      fst (grid_loop 0 images [] w t) = Err e ->
      exists new,
        makeGrid dirname images w t = (Err e, t ++ new)
        /\ forallb is_decode new = true.
Proof.
  split.
  - intros bad Hin Hbad.
    destruct (grid_loop_unreadable images 0 [] w t bad Hin Hbad)
      as (k & image & e & Hk & Hfail & Hbefore & Hrun).
    exists k, image, e. repeat split; auto.
    + unfold makeGrid, bind. now rewrite Hrun.
    + apply decodings_write_nothing.
    + apply decodings_write_nothing.
  - intros e He. unfold makeGrid, bind.
    destruct (grid_loop_emits is_decode 0 images [] ltac:(auto) w t)
      as (new & E & F).
    destruct (grid_loop 0 images [] w t) as [r t1]. cbn in He, E. subst r t1.
    eauto.
Qed.

(** C8.  The placement is a function of the number of images alone:
    two completed runs of [makeGrid] on lists of the same length, in
    particular on the same list, under any two environments and
    histories, wrote canvases of the same size with the overlays at the
    same positions; the images are decoded in the order of the list,
    and the capture drawn in cell [k] is what decoding the [k]-th
    element of the list gave. *)
Theorem placement_deterministic
    (images1 images2 : list string) (w1 w2 : env) (t1 t2 : trace) :
  List.length images1 = List.length images2 ->
  fst (makeGrid dirname images1 w1 t1) = Ok tt ->
  fst (makeGrid dirname images2 w2 t2) = Ok tt ->
  exists canvas comps1 comps2,
    snd (makeGrid dirname images1 w1 t1) =
      t1 ++ map SharpToBuffer images1
         ++ [SharpToFile canvas comps1 (outGrid dirname);
             ConsoleLog (outGrid dirname)]
    /\ snd (makeGrid dirname images2 w2 t2) =
      t2 ++ map SharpToBuffer images2
         ++ [SharpToFile canvas comps2 (outGrid dirname);
             ConsoleLog (outGrid dirname)]
    /\ map position comps1 = map position comps2
    /\ forall k image, nth_error images1 k = Some image ->
         exists o,
           nth_error comps1 (2 * k) = Some o
           /\ input o = pixels w1 (t1 ++ map SharpToBuffer (firstn k images1)) image
           /\ position o = (cell_x k, cell_y k).
Proof.
  intros Hlen Hok1 Hok2.
  destruct (makeGrid dirname images1 w1 t1) as [r1 t1'] eqn:E1.
  destruct (makeGrid dirname images2 w2 t2) as [r2 t2'] eqn:E2.
  cbn in Hok1, Hok2. subst r1 r2.
  apply makeGrid_ok in E1, E2. subst t1' t2'.
  exists (base (List.length images1)),
    (cell_overlays 0 (decoded w1 t1 images1)),
    (cell_overlays 0 (decoded w2 t2 images2)).
  split; [reflexivity |].
  split; [now rewrite Hlen |].
  split; [apply cell_overlays_positions; now rewrite !decoded_length |].
  intros k image Hk.
  destruct (cell_overlays_nth (decoded w1 t1 images1) 0 k _
              (decoded_nth w1 images1 t1 k image Hk)) as [H0 _].
  eexists. split; [exact H0 |]. split; reflexivity.
Qed.

End Compositor.

(** ** The driver *)

Section Driver.

Variable dirname : string.

(** C7.  [main] first runs [screenshotSlides] to its end and only
    then [makeGrid], on the paths the capturer returned.  When both
    complete, the path of the composite is the one line printed, after
    the composite was written, nothing is printed on the error stream
    and the exit status is 0.  When either rejects, the error is the
    one value printed on the error stream, nothing is printed on the
    output stream and the exit status is 1; when it was the capturer
    that rejected, the compositor was never started. *)
Theorem driver_exit_behaviour (slideFiles : list string) (w : env) :
  let p := run dirname slideFiles w in
  match screenshotSlides dirname slideFiles w [] with
  | (Err e, t1) =>
      events p = t1 ++ [ConsoleError e]
      /\ exit_status p = 1
      /\ stderr (events p) = [e] /\ stdout (events p) = []
      /\ filter is_decode (events p) = [] /\ filter is_write (events p) = []
  | (Ok images, t1) =>
      images = map (outFile dirname) (seq 0 (List.length slideFiles))
      /\ t1 = [FsMkdir (outDir dirname) true; ChromiumLaunch;
               BrowserNewPage WIDTH HEIGHT]
                ++ capture_events dirname 0 slideFiles ++ [BrowserClose]
      /\ match makeGrid dirname images w t1 with
         | (Ok _, t2) =>
             events p = t2
             /\ (exists canvas comps,
                   t2 = t1 ++ map SharpToBuffer images
                           ++ [SharpToFile canvas comps (outGrid dirname);
                               ConsoleLog (outGrid dirname)])
             /\ exit_status p = 0
             /\ stderr (events p) = [] /\ stdout (events p) = [outGrid dirname]
         | (Err e, t2) =>
             events p = t2 ++ [ConsoleError e]
             /\ exit_status p = 1
             /\ stderr (events p) = [e] /\ stdout (events p) = []
         end
  end.
Proof.
  cbn zeta. unfold run, main, bind.
  destruct (screenshotSlides_emits dirname slideFiles
              (fun ev => negb (is_decode ev || is_write ev || is_console ev))
              ltac:(intros [] H; try discriminate; reflexivity) w [])
    as (new & E & F).
  apply quiet_no_compositor in F as (Hd & Hw & Hq).
  apply quiet_streams in Hq as [Ho He].
  destruct (screenshotSlides dirname slideFiles w []) as [[images | e] t1] eqn:E1.
  - cbn [snd app] in E. subst new.
    apply screenshotSlides_ok in E1 as E1'. destruct E1' as [Himg Ht1].
    split; [exact Himg |]. split; [exact Ht1 |].
    destruct (makeGrid dirname images w t1) as [[u | e] t2] eqn:E2.
    + apply makeGrid_ok in E2. subst t2.
      cbn [events exitCode exit_status].
      rewrite !stdout_app, !stderr_app, Ho, He.
      destruct (quiet_streams (map SharpToBuffer images)) as [Ho' He'].
      { clear. induction images as [| f l IH]; cbn; auto. }
      rewrite Ho', He'. repeat split; eauto.
    + apply makeGrid_err in E2 as (new & -> & Hq).
      apply quiet_streams in Hq as [Ho' He'].
      cbn [events exitCode exit_status].
      rewrite !stdout_app, !stderr_app, Ho, He, Ho', He'.
      repeat split; reflexivity.
  - cbn [snd app] in E. subst new.
    cbn [events exitCode exit_status].
    rewrite !filter_app, !stdout_app, !stderr_app, Ho, He, Hd, Hw.
    repeat split; reflexivity.
Qed.

(** C6, as the script behaves.  With an empty slide list nothing is
    rejected: when no call rejects, the run makes the directory,
    launches the browser, opens a page, closes the browser without any
    capture, writes a composite of 3930 by 18 pixels with no overlay,
    prints its path and ends with exit status 0.  The layout of zero
    images has zero rows, and for every count the row count is
    non-negative and both canvas dimensions are positive. *)
Theorem zero_slides_run (w : env) :
  never_fails w ->
  run dirname [] w =
    {| events :=
         [FsMkdir (outDir dirname) true; ChromiumLaunch;
          BrowserNewPage 960 540; BrowserClose;
          SharpToFile
            {| width := 3930; height := 18; channels := 4;
               background := (20, 23, 32, 1) |}
            [] (outGrid dirname);
          ConsoleLog (outGrid dirname)];
       exitCode := None |}
  /\ exit_status (run dirname [] w) = 0
  /\ grid_rows 0 = 0
  /\ forall n, 0 <= grid_rows n /\ 0 < gridW /\ 0 < gridH n.
Proof.
  intros Hw.
  assert (Hrun : run dirname [] w =
    {| events :=
         [FsMkdir (outDir dirname) true; ChromiumLaunch;
          BrowserNewPage 960 540; BrowserClose;
          SharpToFile
            {| width := 3930; height := 18; channels := 4;
               background := (20, 23, 32, 1) |}
            [] (outGrid dirname);
          ConsoleLog (outGrid dirname)];
       exitCode := None |}).
  { unfold run, main, bind.
    rewrite screenshotSlides_calm, makeGrid_calm by assumption.
    reflexivity. }
  rewrite Hrun. repeat split; try reflexivity.
  - apply grid_rows_nonneg.
  - pose proof (grid_rows_nonneg n) as Hr.
    unfold gridH, HEIGHT, LABEL_H, GAP. lia.
Qed.

(** C9.  The numeral in a capture name is [String(n)] padded with
    ['0'] to at least two characters: exactly two for [n] from 1 to 99,
    and [String(n)] itself, three characters or more, from 100 on.
    Hence the capture paths of the first 99 slides sort in slide order,
    while in every list of 100 slides or more some later slide sorts
    before an earlier one. *)
Theorem capture_numeral_width :
  (forall n, (1 <= n <= 99)%nat ->
     String.length (Js.padStart (Js.Number_toString n) 2 "0") = 2%nat)
  /\ (forall n, (100 <= n)%nat ->
        Js.padStart (Js.Number_toString n) 2 "0" = Js.Number_toString n
        /\ (3 <= String.length (Js.Number_toString n))%nat)
  /\ (forall i j, (i < j < 99)%nat ->
        String.ltb (outFile dirname i) (outFile dirname j) = true)
  /\ (forall count, (100 <= count)%nat ->
        exists i j, (i < j < count)%nat
          /\ String.ltb (outFile dirname j) (outFile dirname i) = true).
Proof.
  split; [| split; [| split]].
  - intros n Hn.
    pose proof (forallb_below _ _ two_digits_below_100 (n - 1) ltac:(lia)) as H.
    cbv beta in H. replace (n - 1 + 1)%nat with n in H by lia.
    now apply Nat.eqb_eq in H.
  - intros n Hn. pose proof (Number_toString_long n Hn) as Hlen.
    split; [apply padStart_long; lia | exact Hlen].
  - intros i j Hij.
    pose proof (forallb_below _ _ names_sorted_below_100 i ltac:(lia)) as H.
    cbv beta in H.
    pose proof (forallb_below _ _ H j ltac:(lia)) as H'. cbv beta in H'.
    destruct (Nat.ltb_spec i j); [| lia]. cbn [implb] in H'.
    rewrite !outFile_path. rewrite ltb_common_prefix. exact H'.
  - intros count Hc. exists 98%nat, 99%nat. split; [lia |].
    rewrite !outFile_path. rewrite ltb_common_prefix.
    vm_compute. reflexivity.
Qed.

End Driver.

(** ** The statements at sample inputs *)

(** Five captures need two rows; the label of the fifth is drawn in the
    first column of the second row, under its capture. *)
Lemma grid_layout_exact_witness :
  fst (makeGrid "/deck" sample_images calm []) = Ok tt
  /\ exists rows comps,
       COLS * (rows - 1) < 5 <= COLS * rows
       /\ List.length comps = 10%nat
       /\ nth_error comps 9 =
          Some {| input := Js.Buffer_from (labelSvgText 4);
                  left := 18; top := 18 + 588 + 540 |}.
Proof.
  split; [reflexivity |].
  destruct (grid_layout_exact "/deck" sample_images calm [] eq_refl)
    as (rows & comps & Hrows & _ & Hlen & Hnth).
  exists rows, comps.
  split; [exact Hrows |].
  split; [exact Hlen |].
  exact (proj2 (Hnth 4%nat (outFile "/deck" 4) eq_refl)).
Defined.

(** A single cell with its gaps fits the canvas of one image exactly in
    height; of seven cells, the fourth and the fifth do not meet, and the
    seventh ends one gap above the bottom of the canvas. *)
Lemma grid_cells_disjoint_in_canvas_witness :
  (0 <= ry (cell 0) - GAP /\ ry (cell 0) + rh (cell 0) + GAP = gridH 1
   /\ 0 <= rx (cell 0) - GAP /\ rx (cell 0) + rw (cell 0) + GAP <= gridW)
  /\ ~ (inside 3000 600 (cell 3) /\ inside 3000 600 (cell 4))
  /\ ry (cell 6) + rh (cell 6) + GAP = gridH 7.
Proof.
  destruct (grid_cells_disjoint_in_canvas 1 0 ltac:(lia))
    as (_ & (Hx0 & Hx1) & (Hy0 & _) & _ & Hfit).
  destruct (grid_cells_disjoint_in_canvas 7 3 ltac:(lia))
    as (Hdisj & _ & _ & _ & Hlast).
  split.
  - split; [exact Hy0 |]. split; [exact Hfit |]. split; [exact Hx0 | exact Hx1].
  - split; [apply (Hdisj 4%nat); lia | exact Hlast].
Defined.

(** The first capture is that of [b.html], the first of the list. *)
Lemma capture_outputs_follow_input_witness :
  screenshotSlides "/deck" sample_slides calm [] =
    (Ok ["/deck/preview/slide-01.png"; "/deck/preview/slide-02.png"],
     snd (screenshotSlides "/deck" sample_slides calm []))
  /\ exists before after,
       snd (screenshotSlides "/deck" sample_slides calm []) =
       before
         ++ [PageGoto "file:///deck/slides/b.html"; PageWaitForTimeout 50;
             PageScreenshot "/deck/preview/slide-01.png"]
         ++ after.
Proof.
  split; [reflexivity |].
  exact (proj2
           (proj2 (proj2
              (proj2 (capture_outputs_follow_input "/deck" sample_slides calm [])
                 _ _ eq_refl))
              0%nat "/deck/slides/b.html" eq_refl)).
Defined.

(** A rejected screenshot: the browser is closed once and the error is
    the one of the screenshot. *)
Lemma browser_closed_exactly_once_witness :
  exists body,
    snd (screenshotSlides "/deck" sample_slides capture_rejects []) =
      [FsMkdir "/deck/preview" true; ChromiumLaunch] ++ body ++ [BrowserClose]
    /\ closes ([FsMkdir "/deck/preview" true; ChromiumLaunch]
                 ++ body ++ [BrowserClose]) = 1%nat
    /\ fst (screenshotSlides "/deck" sample_slides capture_rejects []) =
       Err "screenshot failed".
Proof.
  destruct (browser_closed_exactly_once "/deck" sample_slides capture_rejects []
              eq_refl eq_refl)
    as (body & Hsnd & _ & Hcount & _ & Hfst).
  exists body.
  split; [exact Hsnd |].
  split; [exact Hcount |].
  exact Hfst.
Defined.

(** The third of five captures cannot be decoded: two decodings
    succeed, the third rejects, and nothing else happens. *)
Lemma decode_failure_writes_nothing_witness :
  exists k image e,
    nth_error sample_images k = Some image
    /\ makeGrid "/deck" sample_images decode_rejects [] =
       (Err e, map SharpToBuffer (firstn (S k) sample_images))
    /\ filter is_write (map SharpToBuffer (firstn (S k) sample_images)) = [].
Proof.
  destruct (proj1 (decode_failure_writes_nothing "/deck" sample_images
                     decode_rejects [])
              (outFile "/deck" 2)
              ltac:(vm_compute; tauto)
              ltac:(intros h; vm_compute; discriminate))
    as (k & image & e & Hk & _ & _ & Hrun & Hw & _).
  exists k, image, e. split; [exact Hk |]. split; [exact Hrun | exact Hw].
Defined.

(** An empty deck under a calm environment. *)
Lemma zero_slides_run_witness :
  exit_status (run "/deck" [] calm) = 0 /\ grid_rows 0 = 0.
Proof.
  destruct (zero_slides_run "/deck" calm (fun _ _ => eq_refl))
    as (_ & Hexit & Hrows & _).
  split; [exact Hexit | exact Hrows].
Defined.

(** Two lists of five files, decoded under different environments. *)
Lemma placement_deterministic_witness :
  exists canvas comps1 comps2,
    snd (makeGrid "/deck" sample_images calm []) =
      [] ++ map SharpToBuffer sample_images
         ++ [SharpToFile canvas comps1 "/deck/preview-grid.png";
             ConsoleLog "/deck/preview-grid.png"]
    /\ map position comps1 = map position comps2.
Proof.
  destruct (placement_deterministic "/deck" sample_images (rev sample_images)
              calm mkdir_rejects [] [ConsoleLog "earlier run"]
              eq_refl eq_refl eq_refl)
    as (canvas & comps1 & comps2 & H1 & _ & Hpos & _).
  exists canvas, comps1, comps2. split; [exact H1 | exact Hpos].
Defined.

(** Slide 7 is numbered with two characters. *)
Lemma capture_numeral_width_witness :
  String.length (Js.padStart (Js.Number_toString 7) 2 "0") = 2%nat.
Proof.
  apply (proj1 (capture_numeral_width "/deck")). lia.
Defined.

(** The directory cannot be made: one call, no browser. *)
Lemma output_dir_before_browser_witness :
  screenshotSlides "/deck" sample_slides mkdir_rejects [] =
    (Err "EACCES", [] ++ [FsMkdir "/deck/preview" true]).
Proof.
  exact (proj1 (proj2 (output_dir_before_browser "/deck" sample_slides
                         mkdir_rejects [])
                  "EACCES" eq_refl)).
Defined.

(** C6, as stated, fails: an empty slide list is not rejected. *)
Lemma zero_slides_not_rejected :
  ~ (exists e, fst (main "/deck" [] calm []) = Err e).
Proof. intros [e He]. vm_compute in He. discriminate. Qed.

(** The shipped deck: seven captures and a composite of two rows. *)
Example deck_run_succeeds :
  exit_status (run "/deck" (deckSlides "/deck") calm) = 0
  /\ stdout (events (run "/deck" (deckSlides "/deck") calm)) = ["/deck/preview-grid.png"]
  /\ gridH 7 = 1194.
Proof. vm_compute. auto. Qed.

Example deck_run_fails_when_capture_rejects :
  exit_status (run "/deck" (deckSlides "/deck") capture_rejects) = 1
  /\ stderr (events (run "/deck" (deckSlides "/deck") capture_rejects))
     = ["screenshot failed"]
  /\ closes (events (run "/deck" (deckSlides "/deck") capture_rejects)) = 1%nat.
Proof. vm_compute. auto. Qed.

Example numerals :
  Js.Number_toString 0 = "0" /\ Js.Number_toString 1234 = "1234"
  /\ Js.padStart "7" 2 "0" = "07" /\ Js.padStart "7" 5 "ab" = "abab7"
  /\ outFile "/deck" 99 = "/deck/preview/slide-100.png".
Proof. vm_compute. auto 6. Qed.

(** ** Decimal numerals are read back *)

Lemma string_append_assoc (a b c : string) :
  ((a ++ b) ++ c = a ++ (b ++ c))%string.
Proof. induction a as [| x a IH]; cbn; [reflexivity | now rewrite IH]. Qed.

Lemma string_length_append (a b : string) :
  String.length (a ++ b) = (String.length a + String.length b)%nat.
Proof. induction a as [| x a IH]; cbn; [reflexivity | now rewrite IH]. Qed.

Lemma string_append_inv_head (p a b : string) :
  (p ++ a = p ++ b)%string -> a = b.
Proof.
  induction p as [| x p IH]; cbn; intros H; [exact H |].
  injection H as H. auto.
Qed.

Lemma string_append_inv_tail (a : string) : forall b s,
  (a ++ s = b ++ s)%string -> a = b.
Proof.
  induction a as [| x a IH]; intros [| y b] s H; cbn in H.
  - reflexivity.
  - apply (f_equal String.length) in H. cbn in H.
    rewrite string_length_append in H. lia.
  - apply (f_equal String.length) in H. cbn in H.
    rewrite string_length_append in H. lia.
  - injection H as -> H. f_equal. eauto.
Qed.

Lemma digit_value (k : nat) :
  (k < 10)%nat -> (nat_of_ascii (Js.digit k) - 48)%nat = k.
Proof.
  intros Hk. unfold Js.digit. rewrite nat_ascii_embedding; lia.
Qed.

Lemma decimal_value_app (s r : string) : forall acc,
  decimal_value acc (s ++ r) = decimal_value (decimal_value acc s) r.
Proof. induction s as [| c s IH]; intros acc; cbn; auto. Qed.

Lemma to_decimal_acc (fuel : nat) : forall n acc,
  Js.to_decimal fuel n acc = (Js.to_decimal fuel n "" ++ acc)%string.
Proof.
  induction fuel as [| fuel IH]; intros n acc; [reflexivity |].
  rewrite !to_decimal_step. destruct (n / 10 =? 0)%nat; [reflexivity |].
  rewrite (IH _ (String _ acc)), (IH _ (String _ "")).
  rewrite string_append_assoc. reflexivity.
Qed.

Lemma to_decimal_value (fuel : nat) : forall n,
  (n < fuel)%nat -> decimal_value 0 (Js.to_decimal fuel n "") = n.
Proof.
  induction fuel as [| fuel IH]; intros n Hn; [lia |].
  rewrite to_decimal_step.
  pose proof (Nat.div_mod_eq n 10) as Hdm.
  pose proof (Nat.mod_upper_bound n 10 ltac:(lia)) as Hm.
  destruct (Nat.eqb_spec (n / 10) 0) as [E | N].
  - cbn [decimal_value]. rewrite digit_value by assumption. lia.
  - rewrite to_decimal_acc, decimal_value_app, IH by lia.
    cbn [decimal_value]. rewrite digit_value by assumption. lia.
Qed.

(** Reading [String(n)] as a decimal numeral gives [n] back. *)
Lemma Number_toString_value (n : nat) :
  decimal_value 0 (Js.Number_toString n) = n.
Proof. apply to_decimal_value. lia. Qed.

(** Padding with zeros does not change the number denoted. *)
Lemma padded_value (n : nat) :
  decimal_value 0 (Js.padStart (Js.Number_toString n) 2 "0") = n.
Proof.
  pose proof (Number_toString_value n) as Hv.
  unfold Js.padStart.
  destruct (Js.Number_toString n) as [| c [| c' s]]; cbn in Hv |- *; exact Hv.
Qed.

Lemma map_injective_NoDup {A B} (f : A -> B) (l : list A) :
  (forall x y, f x = f y -> x = y) -> NoDup l -> NoDup (map f l).
Proof.
  intros Hinj Hnd. induction Hnd as [| x l Hx Hnd IH]; cbn; constructor; auto.
  intros Hin. apply in_map_iff in Hin as (y & Hy & Hin).
  apply Hinj in Hy. now subst.
Qed.

(** ** Names and labels *)

Section Names.

Variable dirname : string.

(** X1.  Different slides are captured to different files, whatever
    their number: [outFile] is injective, so the paths returned by a
    completed [screenshotSlides] are pairwise distinct and no capture
    overwrites another. *)
Theorem capture_paths_distinct (slideFiles : list string) (w : env) (t : trace) :
  (forall i j, outFile dirname i = outFile dirname j -> i = j)
  /\ forall outs,
      fst (screenshotSlides dirname slideFiles w t) = Ok outs -> NoDup outs.
Proof.
  assert (Hinj : forall i j, outFile dirname i = outFile dirname j -> i = j).
  { intros i j H. rewrite !outFile_path in H.
    apply string_append_inv_head in H.
    apply (string_append_inv_head "/slide-") in H.
    apply string_append_inv_tail in H.
    apply (f_equal (decimal_value 0)) in H.
    rewrite !padded_value in H. lia. }
  split; [exact Hinj |].
  intros outs Hok.
  destruct (screenshotSlides dirname slideFiles w t) as [r t'] eqn:Erun.
  cbn in Hok. subst r. apply screenshotSlides_ok in Erun as [-> _].
  apply map_injective_NoDup; [exact Hinj | apply seq_NoDup].
Qed.

(** X2.  The label bands of different cells differ: the SVG text of a
    label determines the index of its cell. *)
Theorem labels_distinct (i j : nat) :
  i <> j -> labelSvgText i <> labelSvgText j.
Proof.
  unfold labelSvgText. intros Hij H. apply Hij.
  repeat (apply string_append_inv_head in H).
  apply string_append_inv_tail in H.
  apply (f_equal (decimal_value 0)) in H.
  rewrite !Number_toString_value in H. lia.
Qed.

End Names.

(** ** Where a run of the capturer stops *)

Lemma all_resolve_nil (w : env) (t : trace) : all_resolve w t [].
Proof. intros [| x before] c after H; discriminate. Qed.

Lemma all_resolve_cons (w : env) (t : trace) (c : event) (calls : trace) :
  fails w t c = None -> all_resolve w (t ++ [c]) calls ->
  all_resolve w t (c :: calls).
Proof.
  intros Hc Hrest [| x before] c' after H; cbn in H; injection H as -> ->.
  - now rewrite app_nil_r.
  - specialize (Hrest before c' after eq_refl).
    now rewrite <- app_assoc in Hrest.
Qed.

Section Stops.

Variable dirname : string.

Lemma capture_loop_resolved rest : forall i outs w t r t',
  capture_loop dirname i rest outs w t = (Ok r, t') ->
  all_resolve w t (capture_events dirname i rest).
Proof.
  induction rest as [| f rest IH]; intros i outs w t r t' Hrun;
    cbn [capture_loop capture_events] in *; [apply all_resolve_nil |].
  unfold bind in Hrun. rewrite !perform_run in Hrun.
  destruct (fails w t _) eqn:E1; [discriminate |].
  destruct (fails w (t ++ [_]) _) eqn:E2; [discriminate |].
  destruct (fails w ((t ++ [_]) ++ [_]) _) eqn:E3; [discriminate |].
  apply IH in Hrun. cbn [app].
  repeat (apply all_resolve_cons; [assumption |]). exact Hrun.
Qed.

(** A rejected loop made the calls of a calm loop up to the rejected one. *)
Lemma capture_loop_rejected rest : forall i outs w t e t',
  capture_loop dirname i rest outs w t = (Err e, t') ->
  exists done c later,
    capture_events dirname i rest = done ++ c :: later
    /\ t' = t ++ done ++ [c]
    /\ fails w (t ++ done) c = Some e
    /\ all_resolve w t done.
Proof.
  induction rest as [| f rest IH]; intros i outs w t e t' Hrun;
    cbn [capture_loop capture_events] in *; [discriminate |].
  unfold bind in Hrun. rewrite !perform_run in Hrun. cbn [app].
  set (g := PageGoto ("file://" ++ f)%string) in *.
  set (p := PageWaitForTimeout 50) in *.
  set (s := PageScreenshot (outFile dirname i)) in *.
  set (tail := capture_events dirname (S i) rest) in *.
  destruct (fails w t g) as [e1 |] eqn:E1.
  { injection Hrun as <- <-. exists [], g, (p :: s :: tail).
    rewrite app_nil_r. auto using all_resolve_nil. }
  destruct (fails w (t ++ [g]) p) as [e2 |] eqn:E2.
  { injection Hrun as <- <-. exists [g], p, (s :: tail).
    rewrite <- app_assoc. repeat split; auto.
    apply all_resolve_cons; auto using all_resolve_nil. }
  destruct (fails w ((t ++ [g]) ++ [p]) s) as [e3 |] eqn:E3.
  { injection Hrun as <- <-. exists [g; p], s, tail.
    rewrite <- !app_assoc in *. cbn [app] in *. repeat split; auto.
    apply all_resolve_cons; auto.
    apply all_resolve_cons; auto using all_resolve_nil. }
  apply IH in Hrun as (done & c & later & Hsplit & -> & Hfail & Hres).
  exists (g :: p :: s :: done), c, later.
  rewrite <- !app_assoc in *. cbn [app] in *.
  repeat split; auto.
  - unfold tail. now rewrite Hsplit.
  - apply all_resolve_cons; auto.
    apply all_resolve_cons; auto.
    apply all_resolve_cons; rewrite <- !app_assoc; cbn [app]; auto.
Qed.

Lemma capture_body_rejected slideFiles w t e t' :
  capture_body dirname slideFiles w t = (Err e, t') ->
  exists done c later,
    page_calls dirname slideFiles = done ++ c :: later
    /\ t' = t ++ done ++ [c]
    /\ fails w (t ++ done) c = Some e
    /\ all_resolve w t done.
Proof.
  unfold capture_body, page_calls, bind. rewrite perform_run.
  destruct (fails w t (BrowserNewPage WIDTH HEIGHT)) as [e1 |] eqn:E1.
  - intros H. injection H as <- <-.
    exists [], (BrowserNewPage WIDTH HEIGHT), (capture_events dirname 0 slideFiles).
    rewrite app_nil_r. auto using all_resolve_nil.
  - intros H. apply capture_loop_rejected in H
      as (done & c & later & Hsplit & -> & Hfail & Hres).
    exists (BrowserNewPage WIDTH HEIGHT :: done), c, later.
    rewrite <- !app_assoc in *. cbn [app] in *.
    repeat split; auto.
    + now rewrite Hsplit.
    + apply all_resolve_cons; auto.
Qed.

(** The loop completes when the calls on the page resolve. *)
Lemma capture_loop_pages_resolve rest : forall i outs w t,
  (forall h c, is_page c = true -> fails w h c = None) ->
  capture_loop dirname i rest outs w t =
  (Ok (outs ++ map (outFile dirname) (seq i (List.length rest))),
   t ++ capture_events dirname i rest).
Proof.
  induction rest as [| f rest IH]; intros i outs w t Hw; cbn [capture_loop].
  - cbn. now rewrite !app_nil_r.
  - unfold bind. rewrite !perform_run, !Hw by reflexivity.
    rewrite IH by assumption.
    cbn [List.length seq map capture_events]. rewrite <- !app_assoc. auto.
Qed.

Lemma capture_events_screenshots rest : forall i,
  screenshots (capture_events dirname i rest) =
  map (outFile dirname) (seq i (List.length rest))
  /\ decodings (capture_events dirname i rest) = [].
Proof.
  induction rest as [| f rest IH]; intros i; [split; reflexivity |].
  destruct (IH (S i)) as [Hs Hd]. unfold screenshots, decodings in *.
  cbn [capture_events app flat_map List.length seq map].
  now rewrite Hs, Hd.
Qed.

Section Runs.

Variable slideFiles : list string.

(** X3.  When the browser was launched and [close] resolves, a rejected
    [screenshotSlides] made the calls of a calm run up to the first call
    that rejected, then closed the browser; its error is the error of
    that call, every call before it resolved, and no later slide was
    navigated to or captured. *)
Theorem capture_stops_at_first_rejection (w : env) (t : trace) (e : error) :
  fails w t (FsMkdir (outDir dirname) true) = None ->
  fails w (t ++ [FsMkdir (outDir dirname) true]) ChromiumLaunch = None ->
  (forall h, fails w h BrowserClose = None) ->
  fst (screenshotSlides dirname slideFiles w t) = Err e ->
  exists done c later,
    let launched := t ++ [FsMkdir (outDir dirname) true; ChromiumLaunch] in
    page_calls dirname slideFiles = done ++ c :: later
    /\ snd (screenshotSlides dirname slideFiles w t) =
       launched ++ done ++ [c; BrowserClose]
    /\ fails w (launched ++ done) c = Some e
    /\ all_resolve w launched done.
Proof.
  intros Hmk Hlaunch Hclose. rewrite screenshotSlides_run, Hmk, Hlaunch.
  unfold try_finally.
  destruct (capture_body dirname slideFiles w _) as [[outs | e1] t1] eqn:Ebody;
    rewrite perform_run, Hclose; cbn [fst snd]; [discriminate |].
  intros H. injection H as ->.
  apply capture_body_rejected in Ebody
    as (done & c & later & Hsplit & -> & Hfail & Hres).
  exists done, c, later. cbn zeta.
  split; [exact Hsplit |].
  split; [rewrite <- !app_assoc; reflexivity |].
  split; [exact Hfail | exact Hres].
Qed.

(** X4.  [browser.close()] is called exactly when [chromium.launch()]
    resolved: once if making the directory and launching both resolved,
    never otherwise; and a run that never closed a browser made no call
    on a page and rejected. *)
Theorem close_iff_launched (w : env) (t : trace) :
  exists new,
    snd (screenshotSlides dirname slideFiles w t) = t ++ new
    /\ closes new =
       match fails w t (FsMkdir (outDir dirname) true),
             fails w (t ++ [FsMkdir (outDir dirname) true]) ChromiumLaunch with
       | None, None => 1%nat
       | _, _ => 0%nat
       end
    /\ (closes new = 0%nat ->
        forallb (fun ev => negb (is_page ev)) new = true
        /\ exists e, fst (screenshotSlides dirname slideFiles w t) = Err e).
Proof.
  rewrite screenshotSlides_run.
  destruct (fails w t _) as [e |] eqn:Emk.
  { exists [FsMkdir (outDir dirname) true]. cbn. eauto. }
  destruct (fails w (t ++ [_]) ChromiumLaunch) as [e |] eqn:El.
  { exists [FsMkdir (outDir dirname) true; ChromiumLaunch]. cbn. eauto. }
  destruct (capture_body_emits dirname slideFiles w
              (t ++ [FsMkdir (outDir dirname) true; ChromiumLaunch]))
    as (body & Eb & F).
  unfold try_finally.
  destruct (capture_body dirname slideFiles w _) as [r t1]. cbn in Eb. subst t1.
  rewrite perform_run.
  exists ([FsMkdir (outDir dirname) true; ChromiumLaunch] ++ body ++ [BrowserClose]).
  assert (Hc : closes ([FsMkdir (outDir dirname) true; ChromiumLaunch]
                         ++ body ++ [BrowserClose]) = 1%nat).
  { unfold closes. cbn [app filter is_close].
    rewrite filter_app, (page_events_no_close body F). reflexivity. }
  rewrite Hc. split; [| split; [reflexivity | discriminate]].
  destruct (fails w _ BrowserClose); cbn [snd];
    rewrite <- !app_assoc; reflexivity.
Qed.

(** X5.  When [close] is the only call that rejects, every slide is
    captured and its file written, yet the pipeline fails: the error of
    [close] replaces the list of captures, [makeGrid] is never started,
    the error is printed and the exit status is 1. *)
Theorem close_rejection_aborts_pipeline (w : env) (e : error) :
  (forall h c, fails w h c = if is_close c then Some e else None) ->
  run dirname slideFiles w =
    {| events :=
         [FsMkdir (outDir dirname) true; ChromiumLaunch;
          BrowserNewPage WIDTH HEIGHT]
           ++ capture_events dirname 0 slideFiles
           ++ [BrowserClose; ConsoleError e];
       exitCode := Some 1 |}
  /\ screenshots (events (run dirname slideFiles w)) =
     map (outFile dirname) (seq 0 (List.length slideFiles))
  /\ decodings (events (run dirname slideFiles w)) = []
  /\ filter is_write (events (run dirname slideFiles w)) = [].
Proof.
  intros Hw.
  assert (Hrun : run dirname slideFiles w =
    {| events :=
         [FsMkdir (outDir dirname) true; ChromiumLaunch;
          BrowserNewPage WIDTH HEIGHT]
           ++ capture_events dirname 0 slideFiles
           ++ [BrowserClose; ConsoleError e];
       exitCode := Some 1 |}).
  { unfold run, main, bind. rewrite screenshotSlides_run, !Hw. cbn [is_close].
    unfold try_finally, capture_body, bind.
    rewrite perform_run, Hw. cbn [is_close].
    rewrite capture_loop_pages_resolve
      by (intros h c Hc; rewrite Hw; destruct c; try discriminate; reflexivity).
    rewrite perform_run, Hw. cbn [is_close app].
    rewrite <- !app_assoc. reflexivity. }
  rewrite Hrun. cbn [events]. split; [reflexivity |].
  destruct (capture_events_screenshots slideFiles 0) as [Hs Hd].
  unfold screenshots, decodings in *.
  rewrite !flat_map_app, !filter_app, Hs, Hd. cbn.
  rewrite !app_nil_r. repeat split; auto.
  clear. generalize 0%nat.
  induction slideFiles as [| f l IH]; intros i; cbn; auto.
Qed.

End Runs.

End Stops.

(** ** Outcomes of the compositor *)

Lemma decodings_app (a b : trace) : decodings (a ++ b) = decodings a ++ decodings b.
Proof. apply flat_map_app. Qed.

Lemma screenshots_app (a b : trace) :
  screenshots (a ++ b) = screenshots a ++ screenshots b.
Proof. apply flat_map_app. Qed.

Lemma decodings_of_decodes (files : list string) :
  decodings (map SharpToBuffer files) = files
  /\ screenshots (map SharpToBuffer files) = [].
Proof.
  induction files as [| f files [IHd IHs]]; [split; reflexivity |].
  unfold decodings, screenshots in *. cbn. now rewrite IHd, IHs.
Qed.

Lemma no_decode_events (t : trace) :
  forallb (fun ev => negb (is_decode ev)) t = true -> decodings t = [].
Proof.
  induction t as [| ev t IH]; [reflexivity |].
  cbn [forallb]. intros H. apply andb_prop in H as [Hev Ht].
  unfold decodings in *. cbn [flat_map]. rewrite (IH Ht).
  destruct ev; try discriminate; reflexivity.
Qed.

Section Outcomes.

Variable dirname : string.

(** A rejected loop decoded the images up to the one that rejected. *)
Lemma grid_loop_rejected rest : forall idx acc w t e t',
  grid_loop idx rest acc w t = (Err e, t') ->
  exists k image,
    nth_error rest k = Some image
    /\ t' = t ++ map SharpToBuffer (firstn (S k) rest)
    /\ fails w (t ++ map SharpToBuffer (firstn k rest)) (SharpToBuffer image) = Some e.
Proof.
  induction rest as [| image rest IH]; intros idx acc w t e t' Hrun;
    cbn [grid_loop] in Hrun; [discriminate |].
  unfold bind, sharp_toBuffer in Hrun.
  destruct (fails w t (SharpToBuffer image)) as [e1 |] eqn:Ehead.
  - injection Hrun as <- <-. exists 0%nat, image. cbn. rewrite app_nil_r. auto.
  - apply IH in Hrun as (k & img & Hk & -> & Hfail).
    exists (S k), img. cbn [nth_error firstn map].
    rewrite <- !app_assoc in *. cbn [app] in *. auto.
Qed.

(** X6.  [makeGrid] ends in one of three ways.  It completes, having
    decoded the [N] images in order, written once and printed the path
    of the composite; or the write rejects after the [N] decodings, and
    nothing is printed; or the decoding of some image rejects, and
    neither that write nor any later decoding is attempted.  [toFile] is
    only ever called with the canvas for [N] images and all [2 N]
    overlays. *)
Theorem makeGrid_outcomes (images : list string) (w : env) (t : trace) :
  (exists comps,
     let write := SharpToFile (base (List.length images)) comps (outGrid dirname) in
     List.length comps = (2 * List.length images)%nat
     /\ ((makeGrid dirname images w t =
            (Ok tt, t ++ map SharpToBuffer images
                      ++ [write; ConsoleLog (outGrid dirname)])
          /\ fails w (t ++ map SharpToBuffer images) write = None)
         \/ exists e,
              makeGrid dirname images w t =
                (Err e, t ++ map SharpToBuffer images ++ [write])
              /\ fails w (t ++ map SharpToBuffer images) write = Some e))
  \/ exists k image e,
       nth_error images k = Some image
       /\ makeGrid dirname images w t =
          (Err e, t ++ map SharpToBuffer (firstn (S k) images))
       /\ fails w (t ++ map SharpToBuffer (firstn k images)) (SharpToBuffer image)
          = Some e.
Proof.
  unfold makeGrid, bind.
  destruct (grid_loop 0 images [] w t) as [[comps | e] t1] eqn:Eloop.
  - left. apply grid_loop_ok in Eloop as [-> ->]. cbn [app].
    exists (cell_overlays 0 (decoded w t images)). cbn zeta.
    split; [now rewrite cell_overlays_length, decoded_length |].
    rewrite perform_run.
    destruct (fails w _ (SharpToFile _ _ _)) as [e |] eqn:Ew.
    + right. exists e. rewrite <- app_assoc. auto.
    + left. unfold console_log. rewrite <- !app_assoc. auto.
  - right. apply grid_loop_rejected in Eloop as (k & image & Hk & -> & Hfail).
    exists k, image, e. auto.
Qed.

(** X7.  The compositor only reads captures of the same run: in every
    run of the pipeline the files decoded are, in order, the first files
    written by the screenshots; and when [main] completes they are
    exactly the files written, one per slide. *)
Theorem compositor_reads_what_was_captured (slideFiles : list string) (w : env) :
  let evs := events (run dirname slideFiles w) in
  (exists k, decodings evs = firstn k (screenshots evs))
  /\ (fst (main dirname slideFiles w []) = Ok tt ->
      decodings evs = screenshots evs
      /\ screenshots evs = map (outFile dirname) (seq 0 (List.length slideFiles))).
Proof.
  cbn zeta. unfold run, main, bind.
  destruct (screenshotSlides_emits dirname slideFiles
              (fun ev => negb (is_decode ev))
              ltac:(intros [] H; try discriminate; reflexivity) w [])
    as (new & E & F).
  apply no_decode_events in F.
  destruct (screenshotSlides dirname slideFiles w []) as [[images | e] t1] eqn:E1;
    cbn [snd app] in E; subst new.
  2:{ cbn [events fst]. rewrite decodings_app, F. cbn.
      split; [now exists 0%nat | discriminate]. }
  apply screenshotSlides_ok in E1 as [Himg Ht1]. cbn [app] in Ht1.
  assert (Hshots : screenshots t1 = images).
  { subst t1 images.
    change (screenshots (capture_events dirname 0 slideFiles ++ [BrowserClose])
            = map (outFile dirname) (seq 0 (List.length slideFiles))).
    rewrite screenshots_app.
    rewrite (proj1 (capture_events_screenshots dirname slideFiles 0)).
    cbn. now rewrite app_nil_r. }
  destruct (decodings_of_decodes images) as [Hdd Hds].
  destruct (makeGrid_outcomes images w t1)
    as [(comps & _ & [[Hrun _] | (e & Hrun & _)]) | (k & image & e & _ & Hrun & _)];
    rewrite Hrun; cbn [events fst].
  - rewrite !decodings_app, !screenshots_app, F, Hshots, Hdd, Hds. cbn.
    rewrite !app_nil_r. split; [| intros _; split; [reflexivity | exact Himg]].
    exists (List.length images). now rewrite firstn_all.
  - rewrite !decodings_app, !screenshots_app, F, Hshots, Hdd, Hds. cbn.
    rewrite !app_nil_r. split; [| discriminate].
    exists (List.length images). now rewrite firstn_all.
  - destruct (decodings_of_decodes (firstn (S k) images)) as [Hkd Hks].
    rewrite !decodings_app, !screenshots_app, F, Hshots, Hkd, Hks. cbn.
    rewrite !app_nil_r. split; [now exists (S k) | discriminate].
Qed.

End Outcomes.

(** ** The order of the cells *)

(** X8.  The cells follow reading order.  The cell after one that is
    not in the last column sits in the same row, one capture width and
    one gap to the right; the cell after one in the last column starts
    the next row, one cell height and one gap lower; so a later cell is
    always lower, or in the same row and further right. *)
Theorem cells_in_reading_order (i : nat) :
  (cell_col i < COLS - 1 ->
   cell_x (S i) = cell_x i + WIDTH + GAP /\ cell_y (S i) = cell_y i)
  /\ (cell_col i = COLS - 1 ->
      cell_x (S i) = GAP /\ cell_y (S i) = cell_y i + HEIGHT + LABEL_H + GAP)
  /\ forall j, (i < j)%nat ->
       cell_y i < cell_y j \/ (cell_y i = cell_y j /\ cell_x i < cell_x j).
Proof.
  assert (Hdm : forall k : nat,
             Z.of_nat k = 4 * cell_row k + cell_col k /\ 0 <= cell_col k < 4).
  { intros k. rewrite cell_row_eq, cell_col_eq. unfold COLS.
    pose proof (Z.div_mod (Z.of_nat k) 4 ltac:(lia)).
    pose proof (Z.mod_pos_bound (Z.of_nat k) 4 ltac:(lia)). lia. }
  pose proof (Hdm i) as Hi. pose proof (Hdm (S i)) as Hsi.
  unfold cell_x, cell_y, COLS, WIDTH, HEIGHT, LABEL_H, GAP.
  repeat split; try lia.
  intros j Hij. pose proof (Hdm j) as Hj. lia.
Qed.

(** X9.  The canvas grows by whole rows: [COLS] more images make it
    taller by exactly one cell height and one gap, and more images never
    make it lower. *)
Theorem canvas_grows_by_rows (n m : nat) :
  gridH (n + Z.to_nat COLS) = gridH n + (HEIGHT + LABEL_H + GAP)
  /\ ((n <= m)%nat -> gridH n <= gridH m).
Proof.
  change (Z.to_nat COLS) with 4%nat.
  pose proof (grid_rows_ceil n) as Hn.
  pose proof (grid_rows_ceil m) as Hm.
  pose proof (grid_rows_ceil (n + 4)) as Hn4.
  unfold gridH, COLS, WIDTH, HEIGHT, LABEL_H, GAP in *.
  repeat split; lia.
Qed.

(** ** The deck builder *)

Module BuildFacts.

Import Build.

Section Outcomes.

Variable parentDir : string.

(** The loop converts the slides in order and stops at the first
    rejection. *)
Lemma convert_outcomes rest : forall w t,
  (convert w t {| layout := "LAYOUT_16x9" |} rest = (Ok tt, t ++ conversions rest))
  \/ exists k f e,
       nth_error rest k = Some f
       /\ convert w t {| layout := "LAYOUT_16x9" |} rest =
          (Err e, t ++ conversions (firstn (S k) rest))
       /\ w (t ++ conversions (firstn k rest))
            (Html2pptx f {| layout := "LAYOUT_16x9" |}) = Some e.
Proof.
  induction rest as [| f rest IH]; intros w t; cbn [convert].
  - left. cbn. now rewrite app_nil_r.
  - destruct (w t (Html2pptx f _)) as [e |] eqn:Ehead.
    + right. exists 0%nat, f, e. cbn. rewrite app_nil_r. auto.
    + destruct (IH w (t ++ [Html2pptx f {| layout := "LAYOUT_16x9" |}]))
        as [Hok | (k & g & e & Hk & Hrun & Hfail)].
      * left. rewrite Hok, <- app_assoc. reflexivity.
      * right. exists (S k), g, e. cbn [nth_error firstn].
        rewrite Hrun. rewrite <- !app_assoc in *. auto.
Qed.

Lemma conversions_no_write (slides : list string) :
  filter is_write (conversions slides) = [].
Proof. induction slides as [| f l IH]; cbn; auto. Qed.

(** X10.  [build.mjs] ends in one of three ways.  Every slide is
    converted in list order into a 16:9 presentation, the presentation
    is written once, its path is printed and the exit status is 0; or
    the write rejects after all conversions; or the conversion of some
    slide rejects, no later slide is converted and the presentation is
    not written.  In the last two cases the error is printed and the
    exit status is 1. *)
Theorem deck_written_only_after_all_slides (slideFiles : list string) (w : world) :
  let p := run parentDir slideFiles w in
  let write := PptxWriteFile (outFile parentDir) in
  (events p = conversions slideFiles ++ [write; ConsoleLog (outFile parentDir)]
   /\ exit_status p = 0
   /\ w (conversions slideFiles) write = None)
  \/ (exists e,
        events p = conversions slideFiles ++ [write; ConsoleError e]
        /\ exit_status p = 1
        /\ w (conversions slideFiles) write = Some e)
  \/ (exists k f e,
        nth_error slideFiles k = Some f
        /\ events p = conversions (firstn (S k) slideFiles) ++ [ConsoleError e]
        /\ exit_status p = 1
        /\ w (conversions (firstn k slideFiles))
             (Html2pptx f {| layout := "LAYOUT_16x9" |}) = Some e
        /\ filter is_write (events p) = []).
Proof.
  cbn zeta. unfold run, main.
  destruct (convert_outcomes slideFiles w [])
    as [Hok | (k & f & e & Hk & Hrun & Hfail)].
  - rewrite Hok. cbn [app].
    destruct (w (conversions slideFiles) (PptxWriteFile (outFile parentDir)))
      as [e |] eqn:Ew.
    + right. left. exists e. cbn [events exitCode exit_status].
      rewrite <- app_assoc. auto.
    + left. auto.
  - right. right. exists k, f, e. rewrite Hrun. cbn [app events exitCode exit_status].
    repeat split; auto.
    rewrite filter_app, conversions_no_write. reflexivity.
Qed.

End Outcomes.

End BuildFacts.

(** ** From slide to cell *)

(** X11.  In a completed run of the pipeline the slide at position [k]
    of the list is the one navigated to before the screenshot written to
    [outFile k]; that file is what is decoded for the overlay at
    position [2 k], drawn at the origin of cell [k]; and the overlay at
    [2 k + 1] is the label band of cell [k], right below it. *)
Theorem slide_reaches_its_cell (dirname : string) (slideFiles : list string) (w : env) :
  fst (main dirname slideFiles w []) = Ok tt ->
  exists captured canvas comps,
    let outs := map (outFile dirname) (seq 0 (List.length slideFiles)) in
    events (run dirname slideFiles w) =
      captured ++ map SharpToBuffer outs
        ++ [SharpToFile canvas comps (outGrid dirname); ConsoleLog (outGrid dirname)]
    /\ forall k slide, nth_error slideFiles k = Some slide ->
         (exists before after,
            captured =
            before
              ++ [PageGoto ("file://" ++ slide)%string; PageWaitForTimeout 50;
                  PageScreenshot (outFile dirname k)]
              ++ after)
         /\ nth_error comps (2 * k) =
            Some {| input :=
                      pixels w (captured ++ map SharpToBuffer (firstn k outs))
                        (outFile dirname k);
                    left := cell_x k; top := cell_y k |}
         /\ nth_error comps (2 * k + 1) =
            Some {| input := Js.Buffer_from (labelSvgText k);
                    left := cell_x k; top := cell_y k + HEIGHT |}.
Proof.
  unfold run, main, bind.
  destruct (screenshotSlides dirname slideFiles w []) as [[images | e] t1] eqn:E1;
    [| discriminate].
  apply screenshotSlides_ok in E1 as [-> Ht1]. cbn [app] in Ht1.
  destruct (makeGrid dirname _ w t1) as [[[] | e] t2] eqn:E2; [| discriminate].
  intros _. apply makeGrid_ok in E2. subst t2. cbn [events].
  set (outs := map (outFile dirname) (seq 0 (List.length slideFiles))) in *.
  exists t1, (base (List.length outs)), (cell_overlays 0 (decoded w t1 outs)).
  cbn zeta. split; [reflexivity |].
  intros k slide Hk.
  assert (Hout : nth_error outs k = Some (outFile dirname k)).
  { assert (Hlt : (k < List.length slideFiles)%nat)
      by (apply nth_error_Some; congruence).
    unfold outs. rewrite nth_error_map, nth_error_seq.
    destruct (Nat.ltb_spec k (List.length slideFiles)); [reflexivity | lia]. }
  split.
  - destruct (capture_events_nth dirname slideFiles 0 k slide Hk)
      as (pre & post & E).
    exists ([FsMkdir (outDir dirname) true; ChromiumLaunch;
             BrowserNewPage WIDTH HEIGHT] ++ pre), (post ++ [BrowserClose]).
    rewrite Ht1, E. cbn [Nat.add app]. rewrite <- !app_assoc. reflexivity.
  - destruct (cell_overlays_nth (decoded w t1 outs) 0 k _
                (decoded_nth w outs t1 k _ Hout)) as [H0 H1].
    cbn [Nat.add] in H0, H1. auto.
Qed.

(** ** Further statements at sample inputs *)

Lemma capture_paths_distinct_witness :
  NoDup ["/deck/preview/slide-01.png"; "/deck/preview/slide-02.png"].
Proof.
  exact (proj2 (capture_paths_distinct "/deck" sample_slides calm []) _ eq_refl).
Defined.

Lemma labels_distinct_witness : labelSvgText 0 <> labelSvgText 10.
Proof. apply labels_distinct. lia. Defined.

(** The screenshot of the first slide rejects: two calls on the page
    resolved before it, and the second slide is never navigated to. *)
Lemma capture_stops_at_first_rejection_witness :
  exists done c later,
    page_calls "/deck" sample_slides = done ++ c :: later
    /\ snd (screenshotSlides "/deck" sample_slides capture_rejects []) =
       [FsMkdir "/deck/preview" true; ChromiumLaunch] ++ done ++ [c; BrowserClose]
    /\ fails capture_rejects
         ([FsMkdir "/deck/preview" true; ChromiumLaunch] ++ done) c
       = Some "screenshot failed".
Proof.
  destruct (capture_stops_at_first_rejection "/deck" sample_slides capture_rejects
              [] "screenshot failed" eq_refl eq_refl (fun _ => eq_refl) eq_refl)
    as (done & c & later & Hsplit & Hsnd & Hfail & _).
  exists done, c, later. split; [exact Hsplit |]. split; [exact Hsnd | exact Hfail].
Defined.

Lemma close_iff_launched_witness :
  exists new,
    snd (screenshotSlides "/deck" sample_slides mkdir_rejects []) = [] ++ new
    /\ closes new = 0%nat
    /\ forallb (fun ev => negb (is_page ev)) new = true.
Proof.
  destruct (close_iff_launched "/deck" sample_slides mkdir_rejects [])
    as (new & E & Hc & Hnone).
  exists new. split; [exact E |]. split; [exact Hc |].
  exact (proj1 (Hnone Hc)).
Defined.

Lemma close_rejection_aborts_pipeline_witness :
  exit_status (run "/deck" sample_slides close_rejects) = 1
  /\ screenshots (events (run "/deck" sample_slides close_rejects)) =
     ["/deck/preview/slide-01.png"; "/deck/preview/slide-02.png"]
  /\ decodings (events (run "/deck" sample_slides close_rejects)) = [].
Proof.
  destruct (close_rejection_aborts_pipeline "/deck" sample_slides close_rejects
              "browser has been closed" (fun _ _ => eq_refl))
    as (_ & Hs & Hd & _).
  split; [reflexivity |]. split; [exact Hs | exact Hd].
Defined.

Lemma compositor_reads_what_was_captured_witness :
  decodings (events (run "/deck" sample_slides calm)) =
  screenshots (events (run "/deck" sample_slides calm)).
Proof.
  exact (proj1 (proj2 (compositor_reads_what_was_captured "/deck" sample_slides calm)
                  eq_refl)).
Defined.

(** The fifth cell starts the second row. *)
Lemma cells_in_reading_order_witness :
  cell_x 4 = GAP /\ cell_y 4 = cell_y 3 + HEIGHT + LABEL_H + GAP.
Proof.
  apply (proj1 (proj2 (cells_in_reading_order 3))). reflexivity.
Defined.

Lemma canvas_grows_by_rows_witness : gridH 3 <= gridH 7.
Proof. apply (proj2 (canvas_grows_by_rows 3 7)). lia. Defined.

Lemma slide_reaches_its_cell_witness :
  exists captured canvas comps,
    events (run "/deck" sample_slides calm) =
      captured
        ++ map SharpToBuffer
             ["/deck/preview/slide-01.png"; "/deck/preview/slide-02.png"]
        ++ [SharpToFile canvas comps "/deck/preview-grid.png";
            ConsoleLog "/deck/preview-grid.png"]
    /\ nth_error comps 3 =
       Some {| input := Js.Buffer_from (labelSvgText 1);
               left := cell_x 1; top := cell_y 1 + HEIGHT |}.
Proof.
  destruct (slide_reaches_its_cell "/deck" sample_slides calm eq_refl)
    as (captured & canvas & comps & Hev & Hcells).
  exists captured, canvas, comps. split; [exact Hev |].
  exact (proj2 (proj2 (Hcells 1%nat "/deck/slides/a.html" eq_refl))).
Defined.

(** The builder on a deck of two slides: a calm world, and one in which
    the first slide cannot be converted. *)
Example build_run_succeeds :
  Build.run "/work" sample_slides (fun _ _ => None) =
    {| Build.events :=
         [Build.Html2pptx "/deck/slides/b.html" {| Build.layout := "LAYOUT_16x9" |};
          Build.Html2pptx "/deck/slides/a.html" {| Build.layout := "LAYOUT_16x9" |};
          Build.PptxWriteFile "/work/2.pptx"; Build.ConsoleLog "/work/2.pptx"];
       Build.exitCode := None |}.
Proof. reflexivity. Qed.

Example build_run_fails_on_bad_slide :
  Build.run "/work" sample_slides (Build.slide_rejects "/deck/slides/b.html") =
    {| Build.events :=
         [Build.Html2pptx "/deck/slides/b.html" {| Build.layout := "LAYOUT_16x9" |};
          Build.ConsoleError "cannot convert"];
       Build.exitCode := Some 1 |}.
Proof. reflexivity. Qed.
